(** * FairVote: the vote transaction, the recount/publish workflow and the
      public results projection, embedded from the TypeScript sources

    Sources embedded:
    - [src/app/page.tsx]: [normalizeEmail], [uniqueList],
      [handleCreateElection], [submitVote];
    - [src/app/elections/[id]/page.tsx]: [submitVote] (the same body as the
      one of the home page, over the page's own selection state),
      [closeAndPublish], [reopenVoting];
    - [src/app/elections/[id]/results/page.tsx]: [PublicResultsPage].

    Modelling conventions.
    - A JavaScript string is a [string] whose characters are code units
      below 256 (the Latin-1 range of UTF-16); [trim] and [toLowerCase] are
      written out for that range.
    - A JavaScript number that counts things is a [Z].
    - A Firestore collection is a [gmap] from document id to document; an
      optional field ([field?: T]) is an [option].
    - Server timestamps ([createdAt], [updatedAt], [publishedAt]) are left
      out: no modelled code reads them.
    - Firestore is an external collaborator.  Its calls are modelled by
      their documented sequential behaviour; a field path [counts.<name>]
      addresses the entry [<name>] of the [counts] map (names are taken
      free of the path separator and of the reserved path characters).
    - An [async] function is a computation over the store that either
      resolves or rejects; the writes issued before a rejection stay,
      except inside [runTransaction], which commits all or nothing. *)

From Stdlib Require Import ZArith Ascii String List Permutation.
From stdpp Require Import gmap strings list fin_maps.

Open Scope Z_scope.

(** ** Strings *)

(** The white space that [String.prototype.trim] removes, below 256: TAB,
    LF, VT, FF, CR, SPACE and NO-BREAK SPACE. *)
Definition is_space (a : ascii) : bool :=
  let n := N_of_ascii a in
  ((9 <=? n) && (n <=? 13) || (n =? 32) || (n =? 160))%N.

Fixpoint trimStart (s : string) : string :=
  match s with
  | EmptyString => EmptyString
  | String a s' => if is_space a then trimStart s' else s
  end.

Fixpoint trimEnd (s : string) : string :=
  match s with
  | EmptyString => EmptyString
  | String a s' =>
      match trimEnd s' with
      | EmptyString => if is_space a then EmptyString else String a EmptyString
      | t => String a t
      end
  end.

(** [value.trim()] *)
Definition trim (s : string) : string := trimEnd (trimStart s).

(** Lower-casing of one code unit below 256: A-Z, and the Latin-1 capitals
    U+00C0..U+00DE except the multiplication sign U+00D7. *)
Definition lower_char (a : ascii) : ascii :=
  let n := N_of_ascii a in
  if ((65 <=? n) && (n <=? 90) || (192 <=? n) && (n <=? 214)
      || (216 <=? n) && (n <=? 222))%N
  then ascii_of_N (n + 32)
  else a.

(** [value.toLowerCase()] *)
Fixpoint toLowerCase (s : string) : string :=
  match s with
  | EmptyString => EmptyString
  | String a s' => String (lower_char a) (toLowerCase s')
  end.

(** [input.split("\n")]: never empty, the empty input gives one empty line. *)
Fixpoint split_lines (s : string) : list string :=
  match s with
  | EmptyString => [EmptyString]
  | String a s' =>
      if Ascii.eqb a "010"%char then EmptyString :: split_lines s'
      else match split_lines s' with
           | h :: t => String a h :: t
           | [] => [String a EmptyString]
           end
  end.

(** [Boolean(item)] on a string: false exactly on the empty string. *)
Definition truthy (s : string) : bool :=
  match s with EmptyString => false | _ => true end.

(** [Array.from(new Set(items))]: the first occurrence of each string, in
    the order of insertion. *)
Fixpoint array_from_set (seen : list string) (items : list string) : list string :=
  match items with
  | [] => []
  | x :: rest =>
      if bool_decide (x ∈ seen) then array_from_set seen rest
      else x :: array_from_set (x :: seen) rest
  end.

(** [const normalizeEmail = (value) => value.trim().toLowerCase()] *)
Definition normalizeEmail (value : string) : string := toLowerCase (trim value).

(** [const uniqueList = (items) =>
      Array.from(new Set(items.map((item) => item.trim()).filter(Boolean)))] *)
Definition uniqueList (items : list string) : list string :=
  array_from_set [] (filter (λ s, truthy s = true) (map trim items)).

(** ** Documents and the store *)

(** A document of the [elections] collection ([Omit<Election, "id">]). *)
Record ElectionDoc := {
  title : string;
  createdByUid : string;
  createdByEmail : string;
  maxSelections : Z;
  candidates : list string;
  eligibleEmails : list string;
  isClosed : option bool;
  resultsPublished : option bool
}.

(** The client's [Election]: [{ id: docSnap.id, ...docSnap.data() }]. *)
Record Election := {
  id : string;
  doc_of :> ElectionDoc
}.

(** A document of the [results] collection: the Tally. *)
Record ResultsDoc := {
  r_electionId : string;
  r_title : string;
  r_candidates : list string;
  r_createdByUid : string;
  counts : option (gmap string Z);
  totalVotes : option Z;
  isPublished : option bool;
  r_isClosed : option bool
}.

(** A document of the [votes] collection: the Ballot. *)
Record VoteDoc := {
  electionId : string;
  voterUid : string;
  voterEmail : string;
  selections : option (list string)
}.

(** The signed-in identity ([User] of the identity provider). *)
Record User := {
  uid : string;
  email : option string
}.

Record Store := {
  elections : gmap string ElectionDoc;
  results : gmap string ResultsDoc;
  votes : gmap string VoteDoc
}.

Definition emptyStore : Store :=
  {| elections := ∅; results := ∅; votes := ∅ |}.

Definition with_elections (m : gmap string ElectionDoc) (st : Store) : Store :=
  {| elections := m; results := results st; votes := votes st |}.
Definition with_results (m : gmap string ResultsDoc) (st : Store) : Store :=
  {| elections := elections st; results := m; votes := votes st |}.
Definition with_votes (m : gmap string VoteDoc) (st : Store) : Store :=
  {| elections := elections st; results := results st; votes := m |}.

(** ** Asynchronous store computations *)

(** What a rejected call carries: the two errors thrown by the vote
    transaction, or a failure of the store itself. *)
Inductive Err := ALREADY_VOTED | RESULTS_MISSING | STORE_ERROR.

Definition Async (A : Type) : Type := Store → Store * (Err + A).

Definition resolve {A} (a : A) : Async A := λ st, (st, inr a).
Definition reject {A} (e : Err) : Async A := λ st, (st, inl e).
Definition await {A B} (m : Async A) (k : A → Async B) : Async B :=
  λ st, match m st with
        | (st', inr a) => k a st'
        | (st', inl e) => (st', inl e)
        end.

Notation "'let!' x ':=' m 'in' k" := (await m (λ x, k))
  (at level 10, x name, m at level 100, k at level 200).
Notation "m ';;;' k" := (await m (λ _, k))
  (at level 100, k at level 200, right associativity).

(** A call to the store that the backend may fail ([ok = false]). *)
Definition call {A} (ok : bool) (m : Async A) : Async A :=
  if ok then m else reject STORE_ERROR.

(** [items.forEach(f)] for an [f] that issues store calls. *)
Fixpoint forEach {A} (items : list A) (f : A → Async unit) : Async unit :=
  match items with
  | [] => resolve tt
  | x :: rest => f x ;;; forEach rest f
  end.

(** [runTransaction(db, body)]: the body's writes are committed together
    when it resolves and dropped when it throws. *)
Definition runTransaction {A} (ok : bool) (body : Async A) : Async A :=
  λ st, if ok then
          match body st with
          | (st', inr a) => (st', inr a)
          | (_, inl e) => (st, inl e)
          end
        else (st, inl STORE_ERROR).

(** [getDoc] / [transaction.get] on each collection. *)
Definition getResults (ref : string) : Async (option ResultsDoc) :=
  λ st, (st, inr (results st !! ref)).
Definition getVote (ref : string) : Async (option VoteDoc) :=
  λ st, (st, inr (votes st !! ref)).

(** [getDocs(query(collection(db, "votes"), where("electionId", "==", eid)))] *)
Definition votesOf (eid : string) (st : Store) : list VoteDoc :=
  filter (λ v, electionId v = eid) (snd <$> map_to_list (votes st)).
Definition getVotesWhereElection (eid : string) : Async (list VoteDoc) :=
  λ st, (st, inr (votesOf eid st)).

(** [updateDoc] / [transaction.update]: rejects when the document is absent. *)
Definition updateResults (ref : string) (f : ResultsDoc → ResultsDoc) : Async unit :=
  λ st, match results st !! ref with
        | Some r => (with_results (<[ref := f r]> (results st)) st, inr tt)
        | None => (st, inl STORE_ERROR)
        end.
Definition updateElection (ref : string) (f : ElectionDoc → ElectionDoc) : Async unit :=
  λ st, match elections st !! ref with
        | Some d => (with_elections (<[ref := f d]> (elections st)) st, inr tt)
        | None => (st, inl STORE_ERROR)
        end.

(** [setDoc(ref, data)] and [transaction.set(ref, data)]: create or overwrite. *)
Definition setResults (ref : string) (r : ResultsDoc) : Async unit :=
  λ st, (with_results (<[ref := r]> (results st)) st, inr tt).
Definition setVote (ref : string) (v : VoteDoc) : Async unit :=
  λ st, (with_votes (<[ref := v]> (votes st)) st, inr tt).
Definition addElection (newId : string) (d : ElectionDoc) : Async string :=
  λ st, (with_elections (<[newId := d]> (elections st)) st, inr newId).

(** [setDoc(ref, data, { merge: true })] on a Tally: [merge] says how the
    given fields go into an existing document, [fresh] is the document
    created when there is none. *)
Definition setResultsMerge (ref : string)
    (merge : ResultsDoc → ResultsDoc) (fresh : ResultsDoc) : Async unit :=
  λ st, match results st !! ref with
        | Some r => (with_results (<[ref := merge r]> (results st)) st, inr tt)
        | None => (with_results (<[ref := fresh]> (results st)) st, inr tt)
        end.

(** [{ [`counts.${candidate}`]: increment(n) }]: an absent entry (or an
    absent [counts] map) counts as 0. *)
Definition incrementEntry (candidate : string) (n : Z) (m : gmap string Z) : gmap string Z :=
  <[candidate := default 0 (m !! candidate) + n]> m.

Definition incrementCount (candidate : string) (n : Z) (r : ResultsDoc) : ResultsDoc :=
  {| r_electionId := r_electionId r; r_title := r_title r;
     r_candidates := r_candidates r; r_createdByUid := r_createdByUid r;
     counts := Some (incrementEntry candidate n (default ∅ (counts r)));
     totalVotes := totalVotes r;
     isPublished := isPublished r; r_isClosed := r_isClosed r |}.

(** [{ totalVotes: increment(n) }] *)
Definition incrementTotal (n : Z) (r : ResultsDoc) : ResultsDoc :=
  {| r_electionId := r_electionId r; r_title := r_title r;
     r_candidates := r_candidates r; r_createdByUid := r_createdByUid r;
     counts := counts r;
     totalVotes := Some (default 0 (totalVotes r) + n);
     isPublished := isPublished r; r_isClosed := r_isClosed r |}.

(** ** Casting a vote: [submitVote] *)

(** What the user sees after [submitVote]: nothing (the guard
    [if (!db || !user) return]), one of the [setError] banners, or the
    notice of a recorded vote. *)
Inductive VoteOutcome :=
  | VoteSilent
  | VoteClosedError            (* "Voting is closed for this election." *)
  | VoteSelectionError (max : Z)
      (* `Select between 1 and ${max} candidates before voting.` *)
  | VoteAlreadyVotedError      (* "You have already voted in this election." *)
  | VoteResultsMissingError    (* "Results setup is missing. ..." *)
  | VoteFailedError            (* "Failed to submit vote. Please try again." *)
  | VoteSubmitted.             (* "Your vote is submitted. Thank you!" *)

(** [`${election.id}_${user.uid}`] *)
Definition voteKey (eid vid : string) : string := eid +:+ "_" +:+ vid.

(** [election.isClosed] used as a condition: an absent flag is falsy. *)
Definition flag (b : option bool) : bool := default false b.

Definition newBallot (election : Election) (user : User) (sel : list string) : VoteDoc :=
  {| electionId := id election;
     voterUid := uid user;
     voterEmail := default EmptyString (email user);
     selections := Some sel |}.

(** The function handed to [runTransaction]. *)
Definition voteTransaction (election : Election) (user : User)
    (sel : list string) : Async unit :=
  let voteRef := voteKey (id election) (uid user) in
  let! voteSnap := getVote voteRef in
  if bool_decide (is_Some voteSnap) then reject ALREADY_VOTED else
  let resultsRef := id election in
  let! resultsSnap := getResults resultsRef in
  if negb (bool_decide (is_Some resultsSnap)) then reject RESULTS_MISSING else
  forEach sel (λ candidate, updateResults resultsRef (incrementCount candidate 1));;;
  updateResults resultsRef (incrementTotal (Z.of_nat (length sel)));;;
  setVote voteRef (newBallot election user sel).

(** [submitVote]; [ok] tells whether the backend serves the transaction. *)
Definition submitVote (ok : bool) (user : option User) (election : Election)
    (sel : list string) (st : Store) : Store * VoteOutcome :=
  match user with
  | None => (st, VoteSilent)
  | Some user =>
      if flag (isClosed election) then (st, VoteClosedError)
      else if (Z.of_nat (length sel) <? 1)
              || (Z.of_nat (length sel) >? maxSelections election)
      then (st, VoteSelectionError (maxSelections election))
      else
        match runTransaction ok (voteTransaction election user sel) st with
        | (st', inr _) => (st', VoteSubmitted)
        | (st', inl ALREADY_VOTED) => (st', VoteAlreadyVotedError)
        | (st', inl RESULTS_MISSING) => (st', VoteResultsMissingError)
        | (st', inl STORE_ERROR) => (st', VoteFailedError)
        end
  end.

(** ** Closing and publishing: [closeAndPublish], [reopenVoting] *)

(** [candidates.reduce((acc, candidate) => { acc[candidate] = 0; return acc }, {})] *)
Definition zeroCounts (cands : list string) : gmap string Z :=
  foldl (λ acc candidate, <[candidate := 0]> acc) ∅ cands.

(** [if (typeof counts[candidate] === "number") counts[candidate] += 1] *)
Definition bump (cs : gmap string Z) (candidate : string) : gmap string Z :=
  match cs !! candidate with
  | Some n => <[candidate := n + 1]> cs
  | None => cs
  end.

(** One ballot of the recount scan. *)
Definition recountVote (acc : gmap string Z * Z) (v : VoteDoc) : gmap string Z * Z :=
  match selections v with
  | Some sel => (foldl bump acc.1 sel, acc.2 + Z.of_nat (length sel))
  | None => acc
  end.

(** The recount over the scanned ballots ([votesSnapshot.docs.forEach]). *)
Definition recount (cands : list string) (ballots : list VoteDoc) : gmap string Z * Z :=
  foldl recountVote (zeroCounts cands, 0) ballots.

(** [Object.keys(data.counts).length > 0] *)
Definition nonEmptyCounts (m : gmap string Z) : bool :=
  bool_decide (0 < size m)%nat.

(** The fast path: [Some (counts, totalVotes)] when the Tally exists with
    a non-empty [counts] map ([needsRecount = false]). *)
Definition trusted (resultsSnap : option ResultsDoc) : option (gmap string Z * Z) :=
  match resultsSnap with
  | Some data =>
      match counts data with
      | Some m => if nonEmptyCounts m then Some (m, default 0 (totalVotes data)) else None
      | None => None
      end
  | None => None
  end.

(** The store call of the workflow that the backend fails, if any. *)
Inductive PublishFault :=
  | NoFault | GetTallyFails | ScanVotesFails | UpdateElectionFails | SetTallyFails.

Definition works (f g : PublishFault) : bool :=
  match f, g with
  | GetTallyFails, GetTallyFails | ScanVotesFails, ScanVotesFails
  | UpdateElectionFails, UpdateElectionFails | SetTallyFails, SetTallyFails => false
  | _, _ => true
  end.

Definition closeFlags (d : ElectionDoc) : ElectionDoc :=
  {| title := title d; createdByUid := createdByUid d;
     createdByEmail := createdByEmail d; maxSelections := maxSelections d;
     candidates := candidates d; eligibleEmails := eligibleEmails d;
     isClosed := Some true; resultsPublished := Some true |}.

Definition reopenFlag (d : ElectionDoc) : ElectionDoc :=
  {| title := title d; createdByUid := createdByUid d;
     createdByEmail := createdByEmail d; maxSelections := maxSelections d;
     candidates := candidates d; eligibleEmails := eligibleEmails d;
     isClosed := Some false; resultsPublished := resultsPublished d |}.

(** How a map field given to a merging [setDoc] goes into the stored one:
    entry by entry, except that an empty map replaces the stored map. *)
Definition mergeCounts (new : gmap string Z) (old : option (gmap string Z)) : gmap string Z :=
  if bool_decide (new = ∅) then new else new ∪ default ∅ old.

Definition publishedTally (election : Election) (cs : gmap string Z) (tv : Z)
    (old : option ResultsDoc) : ResultsDoc :=
  {| r_electionId := id election; r_title := title election;
     r_candidates := candidates election; r_createdByUid := createdByUid election;
     counts := Some (mergeCounts cs (old ≫= counts));
     totalVotes := Some tv;
     isPublished := Some true; r_isClosed := Some true |}.

Definition reopenedTally (election : Election) (old : option ResultsDoc) : ResultsDoc :=
  {| r_electionId := id election; r_title := title election;
     r_candidates := candidates election; r_createdByUid := createdByUid election;
     counts := old ≫= counts;
     totalVotes := old ≫= totalVotes;
     isPublished := old ≫= isPublished; r_isClosed := Some false |}.

Inductive PublishOutcome :=
  | PublishSilent
  | PublishDone
  | PublishFailed.             (* "Failed to publish results." *)

(** The [try] block of [closeAndPublish]. *)
Definition publishBody (f : PublishFault) (election : Election) : Async unit :=
  let resultsRef := id election in
  let! resultsSnap := call (works f GetTallyFails) (getResults resultsRef) in
  let! tally :=
    match trusted resultsSnap with
    | Some t => resolve t
    | None =>
        let! docs := call (works f ScanVotesFails) (getVotesWhereElection (id election)) in
        resolve (recount (candidates election) docs)
    end in
  call (works f UpdateElectionFails) (updateElection (id election) closeFlags);;;
  call (works f SetTallyFails)
    (setResultsMerge resultsRef
       (λ old, publishedTally election tally.1 tally.2 (Some old))
       (publishedTally election tally.1 tally.2 None)).

(** [closeAndPublish]: the store, the page's [election] state and the banner. *)
Definition closeAndPublish (f : PublishFault) (election : option Election)
    (st : Store) : Store * option Election * PublishOutcome :=
  match election with
  | None => (st, None, PublishSilent)
  | Some e =>
      match publishBody f e st with
      | (st', inr _) =>
          (st', Some {| id := id e; doc_of := closeFlags e |}, PublishDone)
      | (st', inl _) => (st', Some e, PublishFailed)
      end
  end.

(** The store call of [reopenVoting] that the backend fails, if any. *)
Inductive ReopenFault := ReopenNoFault | ReopenUpdateFails | ReopenSetFails.

(** The [try] block of [reopenVoting]. *)

Definition reopenBody (f : ReopenFault) (election : Election) : Async unit :=
  call (match f with ReopenUpdateFails => false | _ => true end)
    (updateElection (id election) reopenFlag);;;
  call (match f with ReopenSetFails => false | _ => true end)
    (setResultsMerge (id election)
       (λ old, reopenedTally election (Some old))
       (reopenedTally election None)).

Inductive ReopenOutcome :=
  | ReopenSilent
  | ReopenDone
  | ReopenFailed.              (* "Failed to reopen voting." *)

(** [reopenVoting]: the store, the page's [election] state and the banner. *)
Definition reopenVoting (f : ReopenFault) (election : option Election)
    (st : Store) : Store * option Election * ReopenOutcome :=
  match election with
  | None => (st, None, ReopenSilent)
  | Some e =>
      match reopenBody f e st with
      | (st', inr _) =>
          (st', Some {| id := id e; doc_of := reopenFlag e |}, ReopenDone)
      | (st', inl _) => (st', Some e, ReopenFailed)
      end
  end.

(** ** Creating an election: [handleCreateElection] *)

(** The state of the creation form. *)
Record Form := {
  f_title : string;
  f_maxSelections : Z;
  candidatesInput : string;
  eligibleInput : string
}.

(** [uniqueList(candidatesInput.split("\n")).map((item) => item.trim())] *)
Definition formCandidates (fm : Form) : list string :=
  map trim (uniqueList (split_lines (candidatesInput fm))).

(** [uniqueList(eligibleInput.split("\n")).map(normalizeEmail)] *)
Definition formEligibleEmails (fm : Form) : list string :=
  map normalizeEmail (uniqueList (split_lines (eligibleInput fm))).

Inductive CreateOutcome :=
  | CreateSilent
  | CreateTitleError           (* "Please add a title for the voting post." *)
  | CreateCandidatesError      (* "Please add at least two candidates." *)
  | CreateMaxError
      (* "Max votes must be between 1 and number of candidates." *)
  | CreateEligibleError
      (* "Please add at least one eligible voter email." *)
  | CreateFailed               (* "Failed to create election. Please try again." *)
  | Created (newId : string).  (* router.push(`/elections/${newDoc.id}`) *)

Inductive CreateFault := CreateNoFault | AddElectionFails | SetNewTallyFails.

Definition newElectionDoc (fm : Form) (user : User) : ElectionDoc :=
  {| title := trim (f_title fm);
     createdByUid := uid user;
     createdByEmail := default EmptyString (email user);
     maxSelections := f_maxSelections fm;
     candidates := formCandidates fm;
     eligibleEmails := formEligibleEmails fm;
     isClosed := Some false;
     resultsPublished := Some false |}.

Definition newTally (fm : Form) (user : User) (newId : string) : ResultsDoc :=
  {| r_electionId := newId;
     r_title := trim (f_title fm);
     r_candidates := formCandidates fm;
     r_createdByUid := uid user;
     counts := Some (zeroCounts (formCandidates fm));
     totalVotes := Some 0;
     isPublished := Some false;
     r_isClosed := Some false |}.

(** The [try] block: the two writes, one after the other.  [newId] is the
    document id that [addDoc] is given by the backend. *)
Definition createBody (f : CreateFault) (fm : Form) (user : User)
    (newId : string) : Async string :=
  let! newDoc := call (match f with AddElectionFails => false | _ => true end)
                   (addElection newId (newElectionDoc fm user)) in
  call (match f with SetNewTallyFails => false | _ => true end)
    (setResults newDoc (newTally fm user newDoc));;;
  resolve newDoc.

Definition handleCreateElection (f : CreateFault) (user : option User)
    (fm : Form) (newId : string) (st : Store) : Store * CreateOutcome :=
  match user with
  | None => (st, CreateSilent)
  | Some user =>
      if negb (truthy (trim (f_title fm))) then (st, CreateTitleError)
      else if Z.of_nat (length (formCandidates fm)) <? 2
      then (st, CreateCandidatesError)
      else if (f_maxSelections fm <? 1)
              || (f_maxSelections fm >? Z.of_nat (length (formCandidates fm)))
      then (st, CreateMaxError)
      else if Z.of_nat (length (formEligibleEmails fm)) =? 0
      then (st, CreateEligibleError)
      else
        match createBody f fm user newId st with
        | (st', inr newDocId) => (st', Created newDocId)
        | (st', inl _) => (st', CreateFailed)
        end
  end.

(** The outcomes that are validation errors of the creation form. *)
Definition isCreateValidationError (o : CreateOutcome) : bool :=
  match o with
  | CreateTitleError | CreateCandidatesError | CreateMaxError
  | CreateEligibleError => true
  | _ => false
  end.

(** The outcomes that are validation errors of a vote submission. *)
Definition isVoteValidationError (o : VoteOutcome) : bool :=
  match o with
  | VoteClosedError | VoteSelectionError _ => true
  | _ => false
  end.

(** ** The public results page: [PublicResultsPage] *)

(** The "Results" card. *)
Inductive ResultsCard :=
  | NotPublishedYet            (* "Results are not published yet." *)
  | PublishedCounts (entries : gmap string Z) (total : Z).

Inductive PublicView :=
  | ResultsNotFound            (* "Results not found" *)
  | ResultsPage (heading : string) (closedPill publishedPill : bool)
      (card : ResultsCard).

(** The effect's [loadResults]: the Tally document, or [null] when it is
    absent or the read fails. *)
Definition loadPublicResults (ok : bool) (electionId : string) (st : Store)
    : option ResultsDoc :=
  match call ok (getResults electionId) st with
  | (_, inr snap) => snap
  | (_, inl _) => None
  end.

(** What the component renders from its [resultsDoc] state. *)
Definition renderPublicResults (resultsDoc : option ResultsDoc) : PublicView :=
  match resultsDoc with
  | None => ResultsNotFound
  | Some d =>
      ResultsPage (r_title d) (flag (r_isClosed d)) (flag (isPublished d))
        (if flag (isPublished d)
         then PublishedCounts (default ∅ (counts d)) (default 0 (totalVotes d))
         else NotPublishedYet)
  end.

Definition PublicResultsPage (ok : bool) (electionId : string) (st : Store) : PublicView :=
  renderPublicResults (loadPublicResults ok electionId st).

(** ** Quantities used in the statements *)

(** [sum(counts.values())] *)
Definition sumCounts (m : gmap string Z) : Z :=
  map_fold (λ _ n acc, n + acc) 0 m.

(** How many times [c] is listed in [sel]. *)
Fixpoint occurrences (c : string) (sel : list string) : Z :=
  match sel with
  | [] => 0
  | x :: rest => (if bool_decide (x = c) then 1 else 0) + occurrences c rest
  end.

(** The Tally of an election, read as a pair with absent fields defaulted. *)
Definition tallyOf (eid : string) (st : Store) : option (gmap string Z * Z) :=
  (λ r, (default ∅ (counts r), default 0 (totalVotes r))) <$> results st !! eid.


(** ** Auxiliary functions of the statements *)

(** The per-candidate updates of one vote, folded over the Tally. *)
Definition countAll (sel : list string) (r : ResultsDoc) : ResultsDoc :=
  foldl (λ r candidate, incrementCount candidate 1 r) r sel.

(** The store after a committed vote. *)
Definition votedStore (election : Election) (user : User) (sel : list string)
    (r : ResultsDoc) (st : Store) : Store :=
  {| elections := elections st;
     results := <[id election :=
                    incrementTotal (Z.of_nat (length sel)) (countAll sel r)]> (results st);
     votes := <[voteKey (id election) (uid user) := newBallot election user sel]> (votes st) |}.



(** ** The election of the scenarios: candidates Ava, Noah and Liam, two
       selections at most, voters a@x.com and b@x.com *)

Definition newline : string := String "010"%char EmptyString.

Definition scenarioForm : Form :=
  {| f_title := "Board";
     f_maxSelections := 2;
     candidatesInput := "Ava" +:+ newline +:+ "Noah" +:+ newline +:+ "Liam";
     eligibleInput := "a@x.com" +:+ newline +:+ "b@x.com" |}.

Definition organizer : User := {| uid := "org"; email := Some "o@x.com"%string |}.
Definition voterA : User := {| uid := "ua"; email := Some "a@x.com"%string |}.
Definition voterB : User := {| uid := "ub"; email := Some "b@x.com"%string |}.

Definition scenarioElection : Election :=
  {| id := "E1"; doc_of := newElectionDoc scenarioForm organizer |}.

(** The store right after the election is created on an empty store. *)
Definition scenarioStore : Store :=
  (handleCreateElection CreateNoFault (Some organizer) scenarioForm "E1" emptyStore).1.

(** The store of Scenario A: a@x.com has voted for Ava and Noah. *)
Definition scenarioStoreA : Store :=
  (submitVote true (Some voterA) scenarioElection ["Ava"; "Noah"]%string scenarioStore).1.

(** The counts and total that [closeAndPublish] writes: the stored ones on
    the fast path, the recount of the stored Ballots otherwise. *)
Definition publishTallyOf (election : Election) (st : Store) : gmap string Z * Z :=
  match trusted (results st !! id election) with
  | Some t => t
  | None => recount (candidates election) (votesOf (id election) st)
  end.

(** The store after the first write of [closeAndPublish], on Election [d]. *)
Definition closedStore (election : Election) (d : ElectionDoc) (st : Store) : Store :=
  with_elections (<[id election := closeFlags d]> (elections st)) st.

(** The store after both writes of [closeAndPublish]. *)
Definition publishedStore (election : Election) (d : ElectionDoc) (st : Store) : Store :=
  {| elections := <[id election := closeFlags d]> (elections st);
     results := <[id election :=
                    publishedTally election (publishTallyOf election st).1
                      (publishTallyOf election st).2 (results st !! id election)]>
                  (results st);
     votes := votes st |}.

(** What one stored Ballot contributes: to the count of [c], and to the total. *)
Definition ballotOccurrences (c : string) (v : VoteDoc) : Z :=
  match selections v with Some sel => occurrences c sel | None => 0 end.
Definition ballotSize (v : VoteDoc) : Z :=
  match selections v with Some sel => Z.of_nat (length sel) | None => 0 end.

Definition sumOver (f : VoteDoc → Z) (ballots : list VoteDoc) : Z :=
  foldr (λ v acc, f v + acc) 0 ballots.

(** A form whose eligible list holds one address in two spellings. *)
Definition twoSpellingsForm : Form :=
  {| f_title := "Board";
     f_maxSelections := 1;
     candidatesInput := "Ava" +:+ newline +:+ "Noah";
     eligibleInput := "A@x.com" +:+ newline +:+ "a@x.com" |}.

(** ** Runs of the application *)




(** A Ballot that lists a name which is not a candidate. *)
Definition strayBallot : VoteDoc :=
  {| electionId := "E1"; voterUid := "ub"; voterEmail := "b@x.com";
     selections := Some ["Zed"%string] |}.

(** ** Choosing candidates: [toggleSelection] *)

(** [toggleSelection] of the election page, as the function given to
    [setVoteSelections]: from the previous selections to the next. *)
Definition toggleSelection (candidate : string) (max : Z) (prev : list string)
    : list string :=
  if bool_decide (candidate ∈ prev)
  then filter (λ item, item ≠ candidate) prev
  else if Z.of_nat (length prev) >=? max then prev
  else prev ++ [candidate].

Module Home.

(** [toggleSelection] of the home page: the selections are kept per
    election, [prev[electionId] ?? []]. *)
Definition toggleSelection (electionId candidate : string) (max : Z)
    (prev : gmap string (list string)) : gmap string (list string) :=
  let current := default [] (prev !! electionId) in
  if bool_decide (candidate ∈ current)
  then <[electionId := filter (λ c, c ≠ candidate) current]> prev
  else if Z.of_nat (length current) >=? max then prev
  else <[electionId := current ++ [candidate]]> prev.

End Home.

(** The check boxes of the candidates ([disabled={hasVoted ||
    election.isClosed || (!checked && reachedMax)}]) and the submit button
    ([disabled={hasVoted || election.isClosed}]). *)
Definition reachedMax (election : Election) (sel : list string) : bool :=
  Z.of_nat (length sel) >=? maxSelections election.

Definition checkboxDisabled (hasVoted : bool) (election : Election)
    (sel : list string) (candidate : string) : bool :=
  hasVoted || flag (isClosed election)
  || (negb (bool_decide (candidate ∈ sel)) && reachedMax election sel).

Definition submitDisabled (hasVoted : bool) (election : Election) : bool :=
  hasVoted || flag (isClosed election).


(** ** Who may vote, who owns: [userEmail], [isOwner], [isEligible],
       [checkVote] *)

(** [user?.email ? normalizeEmail(user.email) : ""] *)
Definition userEmail (user : option User) : string :=
  match user with
  | Some u =>
      match email u with
      | Some e => if truthy e then normalizeEmail e else EmptyString
      | None => EmptyString
      end
  | None => EmptyString
  end.

(** [Boolean(election && user && election.createdByUid === user.uid)] *)
Definition isOwner (election : option Election) (user : option User) : bool :=
  match election, user with
  | Some e, Some u => bool_decide (createdByUid e = uid u)
  | _, _ => false
  end.

(** [Boolean(election && userEmail) &&
     Boolean(election?.eligibleEmails.includes(userEmail))] *)
Definition isEligible (election : option Election) (user : option User) : bool :=
  match election with
  | Some e =>
      truthy (userEmail user)
      && bool_decide (userEmail user ∈ eligibleEmails e)
  | None => false
  end.

(** The effect's [checkVote]: [setHasVoted(voteSnap.exists())]; a failed
    read leaves [hasVoted] as it was. *)
Definition checkVote (ok : bool) (electionId : string) (user : User)
    (hasVoted : bool) (st : Store) : bool :=
  match call ok (getVote (voteKey electionId (uid user))) st with
  | (_, inr voteSnap) => bool_decide (is_Some voteSnap)
  | (_, inl _) => hasVoted
  end.

(** ** The owner's dashboard: [loadResults] *)

(** The [Results] of the pages. *)
Record Results := {
  d_counts : gmap string Z;
  voters : list string;
  d_totalVotes : Z
}.

(** One Ballot of the scan of [loadResults]: the voter's email is pushed
    when it is not empty, the selections are counted as in the recount. *)
Definition loadResultsVote (acc : gmap string Z * list string * Z) (v : VoteDoc)
    : gmap string Z * list string * Z :=
  let '(cs, vs, tv) := acc in
  let vs' := if truthy (voterEmail v) then vs ++ [voterEmail v] else vs in
  match selections v with
  | Some sel => (foldl bump cs sel, vs', tv + Z.of_nat (length sel))
  | None => (cs, vs', tv)
  end.

(** What [loadResults] builds from the scanned Ballots. *)
Definition resultsOfVotes (cands : list string) (docs : list VoteDoc) : Results :=
  let '(cs, vs, tv) := foldl loadResultsVote (zeroCounts cands, [], 0) docs in
  {| d_counts := cs; voters := array_from_set [] vs; d_totalVotes := tv |}.

(** [loadResults] (the same body on both pages): the new [results] state,
    or [None] with the banner "Failed to load results." when the scan is
    refused. *)
Definition loadResults (ok : bool) (election : Election) (st : Store)
    : option Results :=
  match call ok (getVotesWhereElection (id election)) st with
  | (_, inr docs) => Some (resultsOfVotes (candidates election) docs)
  | (_, inl _) => None
  end.

(** ** Names without the separator of the Ballot key *)

Fixpoint no_underscore (s : string) : bool :=
  match s with
  | EmptyString => true
  | String a s' => negb (Ascii.eqb a "_"%char) && no_underscore s'
  end.

(** The scenario election as a page would hold it with another title, other
    candidates and an empty eligible list. *)
Definition scenarioElectionOther : Election :=
  {| id := "E1";
     doc_of := {| title := "Other"; createdByUid := "org";
                  createdByEmail := "o@x.com"; maxSelections := 2;
                  candidates := ["Zed"%string]; eligibleEmails := [];
                  isClosed := None; resultsPublished := None |} |}.
(** * Properties *)

(** ** The store and the store calls *)

Lemma store_eta (st : Store) :
  {| elections := elections st; results := results st; votes := votes st |} = st.
Proof. by destruct st. Qed.

Lemma with_results_id (st : Store) : with_results (results st) st = st.
Proof. apply store_eta. Qed.

Lemma with_results_twice (m1 m2 : gmap string ResultsDoc) (st : Store) :
  with_results m2 (with_results m1 st) = with_results m2 st.
Proof. reflexivity. Qed.

Lemma forEach_increment (ref : string) (sel : list string) :
  ∀ (st : Store) (r : ResultsDoc),
    results st !! ref = Some r →
    forEach sel (λ candidate, updateResults ref (incrementCount candidate 1)) st
    = (with_results (<[ref := countAll sel r]> (results st)) st, inr tt).
Proof.
  induction sel as [|c sel IH]; intros st r Hr; simpl.
  - unfold resolve, countAll; simpl.
    by rewrite insert_id, with_results_id.
  - unfold await, updateResults at 1. rewrite Hr.
    rewrite (IH _ (incrementCount c 1 r)); [|simpl; apply lookup_insert_eq].
    simpl. by rewrite insert_insert_eq.
Qed.

Lemma voteTransaction_run (election : Election) (user : User)
    (sel : list string) (st : Store) :
  voteTransaction election user sel st =
  match votes st !! voteKey (id election) (uid user) with
  | Some _ => (st, inl ALREADY_VOTED)
  | None =>
      match results st !! id election with
      | None => (st, inl RESULTS_MISSING)
      | Some r => (votedStore election user sel r st, inr tt)
      end
  end.
Proof.
  unfold voteTransaction, await, getVote, getResults.
  destruct (votes st !! voteKey (id election) (uid user)) as [b|] eqn:Hb.
  { rewrite bool_decide_eq_true_2 by eauto. reflexivity. }
  rewrite bool_decide_eq_false_2 by (intros [? ?]; discriminate).
  destruct (results st !! id election) as [r|] eqn:Hr.
  - rewrite bool_decide_eq_true_2 by eauto. simpl.
    rewrite (forEach_increment _ _ _ r Hr).
    unfold updateResults, setVote; simpl. rewrite lookup_insert_eq.
    unfold votedStore, with_votes, with_results; simpl.
    by rewrite insert_insert_eq.
  - rewrite bool_decide_eq_false_2 by (intros [? ?]; discriminate). reflexivity.
Qed.

(** ** Counting *)





Lemma occurrences_nonneg (c : string) (sel : list string) : 0 ≤ occurrences c sel.
Proof. induction sel as [|x sel IH]; simpl; [lia|]. case_bool_decide; lia. Qed.


Lemma occurrences_in (c : string) (sel : list string) :
  c ∈ sel → 1 ≤ occurrences c sel.
Proof.
  induction sel as [|x sel IH]; intros Hin; simpl.
  - by apply elem_of_nil in Hin.
  - pose proof (occurrences_nonneg c sel). case_bool_decide; [lia|].
    apply elem_of_cons in Hin as [->|Hin]; [done|]. specialize (IH Hin). lia.
Qed.



(** ** The recount/publish workflow, call by call *)

Lemma publishBody_run (f : PublishFault) (election : Election) (st : Store) :
  publishBody f election st =
  if negb (works f GetTallyFails) then (st, inl STORE_ERROR)
  else if negb (works f ScanVotesFails)
          && negb (bool_decide (is_Some (trusted (results st !! id election))))
  then (st, inl STORE_ERROR)
  else if negb (works f UpdateElectionFails) then (st, inl STORE_ERROR)
  else match elections st !! id election with
       | None => (st, inl STORE_ERROR)
       | Some d =>
           if negb (works f SetTallyFails)
           then (closedStore election d st, inl STORE_ERROR)
           else (publishedStore election d st, inr tt)
       end.
Proof.
  unfold publishBody, publishedStore, closedStore, publishTallyOf, await, call,
    getResults, getVotesWhereElection, updateElection, setResultsMerge, resolve, reject.
  destruct f; simpl;
    destruct (trusted (results st !! id election)) as [[cs tv]|] eqn:Ht; simpl;
    try reflexivity;
    destruct (elections st !! id election) as [d|] eqn:Hd; simpl;
    try reflexivity;
    destruct (results st !! id election) as [r|] eqn:Hr; simpl; reflexivity.
Qed.

Lemma publishBody_NoFault (election : Election) (st : Store) :
  publishBody NoFault election st =
  match elections st !! id election with
  | None => (st, inl STORE_ERROR)
  | Some d => (publishedStore election d st, inr tt)
  end.
Proof. by rewrite publishBody_run. Qed.

Lemma nonEmptyCounts_false (m : gmap string Z) :
  nonEmptyCounts m = false → m = ∅.
Proof.
  unfold nonEmptyCounts. intros H. apply bool_decide_eq_false in H.
  apply map_size_empty_inv. lia.
Qed.

Lemma nonEmptyCounts_true (m : gmap string Z) :
  nonEmptyCounts m = true ↔ m ≠ ∅.
Proof.
  unfold nonEmptyCounts. rewrite bool_decide_eq_true. split.
  - intros H ->. rewrite map_size_empty in H. lia.
  - intros H. destruct (size m) eqn:Hs; [|lia].
    by apply map_size_empty_inv in Hs.
Qed.

Lemma trusted_Some (snap : option ResultsDoc) (m : gmap string Z) (tv : Z) :
  trusted snap = Some (m, tv) →
  ∃ d, snap = Some d ∧ counts d = Some m ∧ m ≠ ∅ ∧ tv = default 0 (totalVotes d).
Proof.
  unfold trusted. destruct snap as [d|]; [|done].
  destruct (counts d) as [m0|] eqn:Hc; [|done].
  destruct (nonEmptyCounts m0) eqn:Hn; [|done].
  intros [= <- <-]. exists d. repeat split; try done. by apply nonEmptyCounts_true.
Qed.

Lemma trusted_None (snap : option ResultsDoc) :
  trusted snap = None → default ∅ (snap ≫= counts) = ∅.
Proof.
  unfold trusted. destruct snap as [d|]; [|done]. simpl.
  destruct (counts d) as [m0|] eqn:Hc; [|done]. simpl.
  destruct (nonEmptyCounts m0) eqn:Hn; [done|].
  intros _. by apply nonEmptyCounts_false.
Qed.

(** The merging write stores exactly the counts that the workflow computed. *)
Lemma published_counts (election : Election) (st : Store) :
  mergeCounts (publishTallyOf election st).1 (results st !! id election ≫= counts)
  = (publishTallyOf election st).1.
Proof.
  unfold mergeCounts, publishTallyOf. case_bool_decide as He; [done|].
  destruct (trusted (results st !! id election)) as [[m tv]|] eqn:Ht.
  - apply trusted_Some in Ht as (d & -> & Hc & _ & _). simpl. rewrite Hc. simpl.
    apply map_eq. intros k. rewrite lookup_union. by destruct (m !! k).
  - apply trusted_None in Ht. rewrite Ht. apply (right_id_L ∅ (∪)).
Qed.

(** ** The recount, entry by entry *)

Lemma zeroCounts_lookup (cands : list string) (c : string) :
  zeroCounts cands !! c = if bool_decide (c ∈ cands) then Some 0 else None.
Proof.
  unfold zeroCounts.
  assert (H : ∀ m : gmap string Z,
             foldl (λ acc candidate, <[candidate := 0]> acc) m cands !! c
             = if bool_decide (c ∈ cands) then Some 0 else m !! c).
  { induction cands as [|x cands IH]; intros m.
    - cbn [foldl]. case_bool_decide as H; [by apply elem_of_nil in H|done].
    - cbn [foldl]. rewrite IH. case_bool_decide as Hin.
      + rewrite bool_decide_eq_true_2; [done|by apply list_elem_of_further].
      + destruct (decide (x = c)) as [->|Hne].
        * rewrite lookup_insert_eq.
          rewrite bool_decide_eq_true_2; [done|apply list_elem_of_here].
        * rewrite lookup_insert_ne by done.
          rewrite bool_decide_eq_false_2; [done|].
          rewrite not_elem_of_cons. split; congruence. }
  rewrite H. by rewrite lookup_empty.
Qed.

Lemma bump_lookup (sel : list string) (m : gmap string Z) (c : string) :
  foldl bump m sel !! c = (λ n, n + occurrences c sel) <$> m !! c.
Proof.
  revert m. induction sel as [|x sel IH]; intros m.
  - cbn [foldl occurrences]. destruct (m !! c); simpl; [f_equal; lia|done].
  - cbn [foldl occurrences]. rewrite IH. unfold bump.
    destruct (m !! x) as [n|] eqn:Hx.
    + destruct (decide (x = c)) as [->|Hne].
      * rewrite lookup_insert_eq, Hx. rewrite bool_decide_eq_true_2 by done.
        simpl. f_equal. lia.
      * rewrite lookup_insert_ne by done. rewrite bool_decide_eq_false_2 by done.
        destruct (m !! c); simpl; [f_equal; lia|done].
    + case_bool_decide as Heq.
      * subst x. rewrite Hx. done.
      * destruct (m !! c); simpl; [f_equal; lia|done].
Qed.

Lemma recountVote_step (v : VoteDoc) (m : gmap string Z) (t : Z) (c : string) :
  (recountVote (m, t) v).1 !! c = (λ n, n + ballotOccurrences c v) <$> m !! c
  ∧ (recountVote (m, t) v).2 = t + ballotSize v.
Proof.
  unfold recountVote, ballotOccurrences, ballotSize.
  destruct (selections v) as [sel|]; cbn [fst snd].
  - split; [apply bump_lookup|done].
  - split; [|lia]. destruct (m !! c); simpl; [f_equal; lia|done].
Qed.

Lemma recountVote_fold (ballots : list VoteDoc) (m : gmap string Z) (t : Z) (c : string) :
  (foldl recountVote (m, t) ballots).1 !! c
  = (λ n, n + sumOver (ballotOccurrences c) ballots) <$> m !! c
  ∧ (foldl recountVote (m, t) ballots).2 = t + sumOver ballotSize ballots.
Proof.
  revert m t. induction ballots as [|v ballots IH]; intros m t.
  - cbn [foldl sumOver foldr fst snd]. split; [|lia].
    destruct (m !! c); simpl; [f_equal; lia|done].
  - cbn [foldl]. change (sumOver ?f (v :: ballots)) with (f v + sumOver f ballots).
    destruct (recountVote_step v m t c) as [S1 S2].
    destruct (recountVote (m, t) v) as [m' t'].
    destruct (IH m' t') as [H1 H2]. cbn [fst snd] in S1, S2.
    rewrite H1, H2, S1, S2. split; [|lia].
    destruct (m !! c); simpl; [f_equal; lia|done].
Qed.

Lemma recount_lookup (cands : list string) (ballots : list VoteDoc) (c : string) :
  (recount cands ballots).1 !! c
  = if bool_decide (c ∈ cands) then Some (sumOver (ballotOccurrences c) ballots) else None.
Proof.
  unfold recount. rewrite (proj1 (recountVote_fold ballots _ 0 c)).
  rewrite zeroCounts_lookup. case_bool_decide; simpl; [f_equal; lia|done].
Qed.


Lemma recount_nonempty (cands : list string) (ballots : list VoteDoc) :
  cands ≠ [] → (recount cands ballots).1 ≠ ∅.
Proof.
  destruct cands as [|c cands]; [done|]. intros _ He.
  pose proof (recount_lookup (c :: cands) ballots c) as H.
  rewrite He, lookup_empty in H.
  rewrite bool_decide_eq_true_2 in H by apply list_elem_of_here. discriminate.
Qed.


Lemma publishTallyOf_again (election e1 : Election) (d : ElectionDoc) (st : Store) :
  id e1 = id election → candidates e1 = candidates election →
  publishTallyOf e1 (publishedStore election d st) = publishTallyOf election st.
Proof.
  intros Hid Hc. unfold publishTallyOf at 1. rewrite Hid, Hc.
  unfold publishedStore at 1. cbn [results]. rewrite lookup_insert_eq.
  unfold trusted. cbn [publishedTally counts totalVotes default].
  rewrite published_counts.
  destruct (nonEmptyCounts (publishTallyOf election st).1) eqn:Hn.
  { by destruct (publishTallyOf election st). }
  apply nonEmptyCounts_false in Hn.
  unfold votesOf, publishedStore. cbn [votes].
  unfold publishTallyOf in *.
  destruct (trusted (results st !! id election)) as [[m tv]|] eqn:Ht; [|done].
  apply trusted_Some in Ht as (? & _ & _ & Hne & _). simpl in Hn. done.
Qed.

Lemma mergeCounts_same (m : gmap string Z) : mergeCounts m (Some m) = m.
Proof.
  unfold mergeCounts. case_bool_decide; [done|]. simpl.
  apply (map_eq (M := gmap string)). intros k. rewrite lookup_union.
  by destruct (m !! k).
Qed.

Lemma publishedTally_again (election : Election) (cs : gmap string Z) (tv : Z)
    (old : option ResultsDoc) :
  mergeCounts cs (old ≫= counts) = cs →
  publishedTally {| id := id election; doc_of := closeFlags election |} cs tv
    (Some (publishedTally election cs tv old))
  = publishedTally election cs tv old.
Proof.
  intros Hm. unfold publishedTally. cbn [id doc_of closeFlags title candidates
    createdByUid counts mbind option_bind].
  by rewrite Hm, mergeCounts_same.
Qed.

(** ** Trimming and lower-casing *)

Lemma is_space_lower_char (a : ascii) : is_space (lower_char a) = is_space a.
Proof. destruct a as [[] [] [] [] [] [] [] []]; reflexivity. Qed.

Lemma lower_char_idem (a : ascii) : lower_char (lower_char a) = lower_char a.
Proof. destruct a as [[] [] [] [] [] [] [] []]; reflexivity. Qed.

Lemma toLowerCase_idem (s : string) : toLowerCase (toLowerCase s) = toLowerCase s.
Proof. induction s as [|a s IH]; simpl; [done|]. by rewrite lower_char_idem, IH. Qed.

Lemma trimStart_toLowerCase (s : string) :
  trimStart (toLowerCase s) = toLowerCase (trimStart s).
Proof.
  induction s as [|a s IH]; simpl; [done|].
  rewrite is_space_lower_char. by destruct (is_space a).
Qed.

Lemma trimEnd_toLowerCase (s : string) :
  trimEnd (toLowerCase s) = toLowerCase (trimEnd s).
Proof.
  induction s as [|a s IH]; simpl; [done|].
  rewrite IH, is_space_lower_char.
  destruct (trimEnd s); simpl; [by destruct (is_space a)|done].
Qed.

Lemma trim_toLowerCase (s : string) : trim (toLowerCase s) = toLowerCase (trim s).
Proof. unfold trim. by rewrite trimStart_toLowerCase, trimEnd_toLowerCase. Qed.

Lemma trimEnd_idem (s : string) : trimEnd (trimEnd s) = trimEnd s.
Proof.
  induction s as [|a s IH]; simpl; [done|].
  destruct (trimEnd s) as [|b t] eqn:Ht.
  - destruct (is_space a) eqn:Ha; simpl; [done|]. by rewrite Ha.
  - cbn [trimEnd]. cbn [trimEnd] in IH. by rewrite IH.
Qed.

Lemma trimStart_head (s : string) :
  trimStart s = EmptyString
  ∨ ∃ a t, trimStart s = String a t ∧ is_space a = false.
Proof.
  induction s as [|a s IH]; simpl; [by left|].
  destruct (is_space a) eqn:Ha; [done|]. right. eauto.
Qed.

Lemma trimEnd_head (a : ascii) (t : string) :
  is_space a = false → ∃ t', trimEnd (String a t) = String a t'.
Proof.
  intros Ha. simpl. destruct (trimEnd t); [rewrite Ha|]; eauto.
Qed.

Lemma trim_idem (s : string) : trim (trim s) = trim s.
Proof.
  unfold trim. destruct (trimStart_head s) as [->|(a & t & -> & Ha)]; [done|].
  destruct (trimEnd_head a t Ha) as [t' Ht']. rewrite Ht'.
  cbn [trimStart]. rewrite Ha, <- Ht'. apply trimEnd_idem.
Qed.

Lemma normalizeEmail_trimmed (value : string) :
  trim (normalizeEmail value) = normalizeEmail value.
Proof. unfold normalizeEmail. by rewrite trim_toLowerCase, trim_idem. Qed.

Lemma normalizeEmail_lowered (value : string) :
  toLowerCase (normalizeEmail value) = normalizeEmail value.
Proof. unfold normalizeEmail. apply toLowerCase_idem. Qed.

(** Every stored eligible email is trimmed and lower-cased. *)
Lemma formEligibleEmails_normalized (fm : Form) (x : string) :
  x ∈ formEligibleEmails fm → trim x = x ∧ toLowerCase x = x.
Proof.
  unfold formEligibleEmails. intros Hx.
  apply list_elem_of_fmap in Hx as (y & -> & _).
  split; [apply normalizeEmail_trimmed|apply normalizeEmail_lowered].
Qed.

Lemma array_from_set_spec (items seen : list string) :
  NoDup (array_from_set seen items)
  ∧ ∀ x, x ∈ array_from_set seen items ↔ x ∈ items ∧ x ∉ seen.
Proof.
  revert seen. induction items as [|y items IH]; intros seen; simpl.
  - split; [constructor|]. intros x. rewrite elem_of_nil. tauto.
  - case_bool_decide as Hy.
    + destruct (IH seen) as [Hnd Hin]. split; [done|].
      intros x. rewrite Hin, elem_of_cons. split; [tauto|].
      intros [[->|?] ?]; tauto.
    + destruct (IH (y :: seen)) as [Hnd Hin]. split.
      * constructor; [|done]. rewrite Hin, elem_of_cons. tauto.
      * intros x. rewrite !elem_of_cons, Hin, not_elem_of_cons.
        destruct (decide (x = y)) as [->|]; tauto.
Qed.


(** ** The sum of the counts *)









(** ** What one action can do to the store *)

Lemma submitVote_cases (ok : bool) (user : option User) (election : Election)
    (sel : list string) (st : Store) :
  (submitVote ok user election sel st).1 = st
  ∨ ∃ u r, user = Some u ∧ sel ≠ []
           ∧ votes st !! voteKey (id election) (uid u) = None
           ∧ results st !! id election = Some r
           ∧ submitVote ok user election sel st
             = (votedStore election u sel r st, VoteSubmitted).
Proof.
  unfold submitVote. destruct user as [u|]; [|by left].
  destruct (flag (isClosed election)); [by left|].
  destruct ((Z.of_nat (length sel) <? 1)
            || (Z.of_nat (length sel) >? maxSelections election)) eqn:Hv; [by left|].
  apply orb_false_iff in Hv as [Hv _]. apply Z.ltb_ge in Hv.
  unfold runTransaction. destruct ok; [|by left].
  rewrite voteTransaction_run.
  destruct (votes st !! voteKey (id election) (uid u)) eqn:Hb; [by left|].
  destruct (results st !! id election) as [r|] eqn:Hr; [|by left].
  right. exists u, r. repeat split; try done.
  intros ->. simpl in Hv. lia.
Qed.

Lemma submitVote_submitted (ok : bool) (user : User) (election : Election)
    (sel : list string) (st st' : Store) :
  submitVote ok (Some user) election sel st = (st', VoteSubmitted) →
  ∃ r, sel ≠ []
       ∧ votes st !! voteKey (id election) (uid user) = None
       ∧ results st !! id election = Some r
       ∧ st' = votedStore election user sel r st.
Proof.
  unfold submitVote.
  destruct (flag (isClosed election)); [done|].
  destruct ((Z.of_nat (length sel) <? 1)
            || (Z.of_nat (length sel) >? maxSelections election)) eqn:Hv; [done|].
  apply orb_false_iff in Hv as [Hv _]. apply Z.ltb_ge in Hv.
  unfold runTransaction. destruct ok; [|done].
  rewrite voteTransaction_run.
  destruct (votes st !! voteKey (id election) (uid user)) eqn:Hb; [done|].
  destruct (results st !! id election) as [r|] eqn:Hr; [|done].
  intros [= <-]. exists r. repeat split; try done.
  intros ->. simpl in Hv. lia.
Qed.

(** ** Every action keeps the invariant of a Tally *)












(** ** The Ballots of an election after a vote *)


Lemma votesOf_fresh (eid : string) (st : Store) :
  (∀ key b, votes st !! key = Some b → electionId b ≠ eid) →
  votesOf eid st = [].
Proof.
  intros Hfresh. unfold votesOf.
  destruct (filter (λ v, electionId v = eid) (snd <$> map_to_list (votes st)))
    as [|v vs] eqn:Hf; [done|].
  assert (Hin : v ∈ filter (λ v, electionId v = eid) (snd <$> map_to_list (votes st)))
    by (rewrite Hf; apply list_elem_of_here).
  apply list_elem_of_filter in Hin as [Hv Hin].
  apply list_elem_of_fmap in Hin as ([k' b'] & -> & Hin).
  apply elem_of_map_to_list in Hin.
  by destruct (Hfresh k' b' Hin).
Qed.


(** ** The vote transaction *)

Lemma submitVote_reaches (ok : bool) (user : User) (election : Election)
    (sel : list string) (st : Store) :
  flag (isClosed election) = false →
  (1 ≤ length sel)%nat →
  Z.of_nat (length sel) ≤ maxSelections election →
  submitVote ok (Some user) election sel st =
  match runTransaction ok (voteTransaction election user sel) st with
  | (st', inr _) => (st', VoteSubmitted)
  | (st', inl ALREADY_VOTED) => (st', VoteAlreadyVotedError)
  | (st', inl RESULTS_MISSING) => (st', VoteResultsMissingError)
  | (st', inl STORE_ERROR) => (st', VoteFailedError)
  end.
Proof.
  intros Hopen Hlo Hhi. unfold submitVote. rewrite Hopen.
  replace (Z.of_nat (length sel) <? 1) with false by (symmetry; apply Z.ltb_ge; lia).
  replace (Z.of_nat (length sel) >? maxSelections election) with false; [done|].
  symmetry. rewrite Z.gtb_ltb. apply Z.ltb_ge. lia.
Qed.



(** C5. A submission is turned down by the checks made before the
    transaction whenever the client's election is closed, or there is no
    selection, or there are more selections than [maxSelections]: the store
    is left as it was, a signed-in user gets one of the two validation
    banners, and the result does not depend on whether the backend would
    have served a transaction (none is attempted). *)
Theorem vote_validation_rejects (ok : bool) (user : option User)
    (election : Election) (sel : list string) (st : Store) :
  isClosed election = Some true
  ∨ (length sel < 1)%nat
  ∨ maxSelections election < Z.of_nat (length sel) →
  (submitVote ok user election sel st).1 = st
  ∧ (∀ u, user = Some u →
       isVoteValidationError (submitVote ok user election sel st).2 = true)
  ∧ submitVote ok user election sel st = submitVote (negb ok) user election sel st.
Proof.
  intros Hbad. unfold submitVote. destruct user as [u|]; [|by repeat split].
  destruct (flag (isClosed election)) eqn:Hc; [by repeat split|].
  assert (Hsel : ((Z.of_nat (length sel) <? 1)
                  || (Z.of_nat (length sel) >? maxSelections election)) = true).
  { destruct Hbad as [Hbad|[Hbad|Hbad]].
    - rewrite Hbad in Hc. discriminate.
    - apply orb_true_iff. left. apply Z.ltb_lt. lia.
    - apply orb_true_iff. right. rewrite Z.gtb_ltb. apply Z.ltb_lt. lia. }
  rewrite Hsel. by repeat split.
Qed.

(** Scenario C: three selections where two are allowed, after Scenario A. *)
Lemma vote_validation_rejects_witness :
  (submitVote true (Some voterB) scenarioElection
     ["Ava"; "Noah"; "Liam"]%string scenarioStoreA).1 = scenarioStoreA
  ∧ (submitVote true (Some voterB) scenarioElection
       ["Ava"; "Noah"; "Liam"]%string scenarioStoreA).2 = VoteSelectionError 2.
Proof.
  split; [|reflexivity].
  apply (vote_validation_rejects true (Some voterB) scenarioElection
           ["Ava"; "Noah"; "Liam"]%string scenarioStoreA).
  right. right. simpl. lia.
Defined.



(** ** Creating an election *)

(** C8. Creation ends with a created election only when the candidate list
    read from the form has at least 2 entries, [maxSelections] lies between
    1 and the number of candidates, and the list of eligible emails read
    from the form is not empty.  When one of these fails nothing is written
    (neither the Election nor the Tally) and a signed-in user gets one of
    the validation banners. *)
Theorem create_validation (f : CreateFault) (user : option User) (fm : Form)
    (newId : string) (st : Store) :
  (∀ i, (handleCreateElection f user fm newId st).2 = Created i →
     (2 ≤ length (formCandidates fm))%nat
     ∧ 1 ≤ f_maxSelections fm ≤ Z.of_nat (length (formCandidates fm))
     ∧ formEligibleEmails fm ≠ [])
  ∧ ((length (formCandidates fm) < 2)%nat
     ∨ f_maxSelections fm < 1
     ∨ Z.of_nat (length (formCandidates fm)) < f_maxSelections fm
     ∨ formEligibleEmails fm = [] →
     (handleCreateElection f user fm newId st).1 = st
     ∧ (∀ u, user = Some u →
          isCreateValidationError (handleCreateElection f user fm newId st).2 = true)).
Proof.
  unfold handleCreateElection.
  destruct user as [u|]; [|split; [intros i Hi; discriminate|by intros _]].
  destruct (negb (truthy (trim (f_title fm)))).
  { split; [intros i Hi; discriminate|by intros _]. }
  destruct (Z.of_nat (length (formCandidates fm)) <? 2) eqn:Hc.
  { split; [intros i Hi; discriminate|by intros _]. }
  apply Z.ltb_ge in Hc.
  destruct ((f_maxSelections fm <? 1)
            || (f_maxSelections fm >? Z.of_nat (length (formCandidates fm)))) eqn:Hm.
  { split; [intros i Hi; discriminate|by intros _]. }
  apply orb_false_iff in Hm as [Hm1 Hm2].
  apply Z.ltb_ge in Hm1. rewrite Z.gtb_ltb in Hm2. apply Z.ltb_ge in Hm2.
  destruct (Z.of_nat (length (formEligibleEmails fm)) =? 0) eqn:He.
  { split; [intros i Hi; discriminate|by intros _]. }
  apply Z.eqb_neq in He.
  split.
  - intros i _. repeat split; try lia.
    intros Hnil. rewrite Hnil in He. simpl in He. lia.
  - intros [H|[H|[H|H]]]; try lia.
    rewrite H in He. simpl in He. lia.
Qed.

(** A form with a single candidate, submitted on the scenario store. *)
Lemma create_validation_witness :
  (handleCreateElection CreateNoFault (Some organizer)
     {| f_title := "Solo"; f_maxSelections := 1;
        candidatesInput := "Ava"; eligibleInput := "a@x.com" |}
     "E2" scenarioStore).1 = scenarioStore.
Proof.
  apply (create_validation CreateNoFault (Some organizer)
           {| f_title := "Solo"; f_maxSelections := 1;
              candidatesInput := "Ava"; eligibleInput := "a@x.com" |}
           "E2" scenarioStore).
  left. vm_compute. lia.
Defined.

(** ** The public results page *)

(** C9. The public page of a Tally shows the counts and the total exactly
    when [isPublished] is true; when the flag is false or absent it shows
    the not-published line whatever the counts are.  What it shows is a
    function of the Tally alone (the Ballots and the Elections do not reach
    it), and of the Tally only the title, the two flags, the counts and the
    total (the organizer's id does not reach it either). *)
Theorem public_view_gated (eid : string) (st : Store) (d : ResultsDoc) :
  results st !! eid = Some d →
  (isPublished d = Some true →
     PublicResultsPage true eid st =
     ResultsPage (r_title d) (flag (r_isClosed d)) true
       (PublishedCounts (default ∅ (counts d)) (default 0 (totalVotes d))))
  ∧ (isPublished d ≠ Some true →
     PublicResultsPage true eid st =
     ResultsPage (r_title d) (flag (r_isClosed d)) false NotPublishedYet)
  ∧ (∀ ok st', results st' !! eid = results st !! eid →
       PublicResultsPage ok eid st' = PublicResultsPage ok eid st)
  ∧ (∀ d', r_title d' = r_title d → r_isClosed d' = r_isClosed d →
       isPublished d' = isPublished d → counts d' = counts d →
       totalVotes d' = totalVotes d →
       renderPublicResults (Some d') = renderPublicResults (Some d)).
Proof.
  intros Hd. unfold PublicResultsPage, loadPublicResults, call, getResults.
  rewrite Hd. simpl. repeat split.
  - intros Hp. by rewrite Hp.
  - intros Hp. destruct (isPublished d) as [[]|]; done.
  - intros [] st' Hst'; [by rewrite Hst', Hd|done].
  - intros d' -> -> -> -> ->. done.
Qed.

(** Scenario D, before publication: the Tally of Scenario A holds counts,
    the page shows the not-published line. *)
Lemma public_view_gated_witness :
  PublicResultsPage true "E1" scenarioStoreA =
  ResultsPage "Board" false false NotPublishedYet.
Proof.
  destruct (public_view_gated "E1" scenarioStoreA
              (incrementTotal 2 (countAll ["Ava"; "Noah"]%string
                 (newTally scenarioForm organizer "E1"))) eq_refl)
    as (_ & H & _).
  rewrite H; [reflexivity|]. vm_compute. discriminate.
Defined.

(** ** The recount/publish workflow *)

(** C3, as stated, fails: when the write of the Tally is refused, the
    workflow reports a failure, the Tally is as it was, and the Election of
    Scenario A has already been closed and marked published. *)
Lemma publish_failure_atomic_counterexample :
  ¬ (∀ (f : PublishFault) (election : Election) (st st' : Store)
       (e' : option Election),
       closeAndPublish f (Some election) st = (st', e', PublishFailed) →
       elections st' = elections st ∧ results st' = results st).
Proof.
  intros H.
  destruct (H SetTallyFails scenarioElection scenarioStoreA
              (closedStore scenarioElection scenarioElection scenarioStoreA)
              (Some scenarioElection) eq_refl) as [He _].
  apply (f_equal (λ m, isClosed <$> m !! "E1"%string)) in He.
  vm_compute in He. discriminate.
Qed.

(** C3, amended. When the workflow reports a failure, the Tally records
    and the Ballots are as they were and the page keeps its election.  The
    Election records are as they were too when the read of the Tally, the
    scan of the Ballots or the write of the Election is what failed (or the
    Election record is absent); when the write of the Tally is what failed,
    the Election has been written, closed and marked published, and the
    Tally has not. *)
Theorem publish_failure_state (f : PublishFault) (election : Election)
    (st st' : Store) (e' : option Election) :
  closeAndPublish f (Some election) st = (st', e', PublishFailed) →
  results st' = results st
  ∧ votes st' = votes st
  ∧ e' = Some election
  ∧ (f ≠ SetTallyFails ∨ elections st !! id election = None → st' = st)
  ∧ (f = SetTallyFails →
     ∀ d, elections st !! id election = Some d →
          elections st' = <[id election := closeFlags d]> (elections st)
          ∧ isClosed <$> elections st' !! id election = Some (Some true)
          ∧ resultsPublished <$> elections st' !! id election = Some (Some true)).
Proof.
  unfold closeAndPublish. rewrite publishBody_run.
  destruct f; cbn [works negb andb];
    destruct (bool_decide (is_Some (trusted (results st !! id election))));
    cbn [negb andb];
    destruct (elections st !! id election) as [d|] eqn:Hd;
    intros [= <- <-];
    (split; [done|]); (split; [done|]); (split; [done|]);
    (split; [try done; intros [?|?]; done|]);
    try done.
  all: intros _ d0 [= <-]; cbn [closedStore with_elections elections];
    by rewrite ?lookup_insert_eq.
Qed.

Lemma publish_failure_state_witness :
  results (closeAndPublish SetTallyFails (Some scenarioElection) scenarioStoreA).1.1
  = results scenarioStoreA.
Proof.
  exact (proj1 (publish_failure_state SetTallyFails scenarioElection scenarioStoreA
           (closedStore scenarioElection scenarioElection scenarioStoreA)
           (Some scenarioElection) eq_refl)).
Defined.

(** C7. After a run of the workflow that succeeded, a second run with no
    vote in between succeeds and leaves the whole store as the first run
    left it, so the Tally's counts and total are unchanged.  When the
    election has a candidate, the counts written by the first run are not
    empty and the second run takes them, and the total, from the Tally (the
    fast path) and writes the same back. *)
Theorem publish_twice (election : Election) (st st1 : Store)
    (e1 : option Election) :
  closeAndPublish NoFault (Some election) st = (st1, e1, PublishDone) →
  closeAndPublish NoFault e1 st1 = (st1, e1, PublishDone)
  ∧ tallyOf (id election) st1 = Some (publishTallyOf election st)
  ∧ (candidates election ≠ [] →
     (publishTallyOf election st).1 ≠ ∅
     ∧ trusted (results st1 !! id election) = Some (publishTallyOf election st)).
Proof.
  unfold closeAndPublish at 1. rewrite publishBody_NoFault.
  destruct (elections st !! id election) as [d|] eqn:Hd; [|done].
  intros [= <- <-].
  set (e1 := {| id := id election; doc_of := closeFlags election |}).
  assert (Hagain : publishTallyOf e1 (publishedStore election d st)
                   = publishTallyOf election st)
    by (by apply publishTallyOf_again).
  split; [|split].
  - unfold closeAndPublish. rewrite publishBody_NoFault.
    unfold publishedStore at 1. cbn [elections]. rewrite lookup_insert_eq.
    f_equal. f_equal.
    unfold publishedStore at 1. rewrite Hagain.
    unfold publishedStore. cbn [elections results votes].
    rewrite !insert_insert_eq, lookup_insert_eq.
    by rewrite (publishedTally_again election _ _ _ (published_counts election st)).
  - unfold tallyOf, publishedStore. cbn [results]. rewrite lookup_insert_eq.
    cbn [fmap option_fmap option_map publishedTally counts totalVotes default].
    rewrite published_counts. by destruct (publishTallyOf election st).
  - intros Hc.
    assert (Hne : (publishTallyOf election st).1 ≠ ∅).
    { unfold publishTallyOf.
      destruct (trusted (results st !! id election)) as [[m tv]|] eqn:Ht.
      - by apply trusted_Some in Ht as (? & _ & _ & Hne & _).
      - by apply recount_nonempty. }
    split; [done|].
    unfold publishedStore. cbn [results]. rewrite lookup_insert_eq.
    unfold trusted. cbn [publishedTally counts totalVotes default].
    rewrite published_counts.
    rewrite (proj2 (nonEmptyCounts_true _) Hne).
    by destruct (publishTallyOf election st).
Qed.

(** Publishing the store of Scenario A twice. *)
Lemma publish_twice_witness :
  tallyOf "E1" (closeAndPublish NoFault (Some scenarioElection) scenarioStoreA).1.1
  = Some (publishTallyOf scenarioElection scenarioStoreA).
Proof.
  exact (proj1 (proj2 (publish_twice scenarioElection scenarioStoreA
           (publishedStore scenarioElection scenarioElection scenarioStoreA)
           (Some {| id := "E1"; doc_of := closeFlags scenarioElection |})
           eq_refl))).
Defined.

(** ** The eligible emails of a new election *)

(** C4. On the eligible list made of the two lines A@x.com and a@x.com,
    the two entries are equal once trimmed and lower-cased, the election is
    created, and its stored [eligibleEmails] holds a@x.com twice: the
    duplicates are removed before the lower-casing, not after. *)
Theorem eligible_emails_case_duplicate :
  split_lines (eligibleInput twoSpellingsForm) = ["A@x.com"; "a@x.com"]%string
  ∧ normalizeEmail "A@x.com" = normalizeEmail "a@x.com"
  ∧ (handleCreateElection CreateNoFault (Some organizer) twoSpellingsForm "E3"
       emptyStore).2 = Created "E3"
  ∧ eligibleEmails <$>
      elections (handleCreateElection CreateNoFault (Some organizer)
                   twoSpellingsForm "E3" emptyStore).1 !! "E3"%string
    = Some ["a@x.com"; "a@x.com"]%string
  ∧ ¬ NoDup (formEligibleEmails twoSpellingsForm).
Proof.
  repeat split; try reflexivity.
  change (formEligibleEmails twoSpellingsForm) with ["a@x.com"; "a@x.com"]%string.
  intros Hnd. apply NoDup_cons in Hnd as [Hn _]. apply Hn, list_elem_of_here.
Qed.

(** ** The Tally over the runs of the application *)



(** The recount taken alone does not keep the sum: it skips a name that is
    not a candidate in the counts and counts it in the total.  (No store of
    the theorem above lets the workflow reach the recount with a Ballot.) *)
Example recount_stray_name :
  recount ["Ava"; "Noah"]%string [strayBallot]
  = ({["Ava"%string := 0; "Noah"%string := 0]}, 1)
  ∧ sumCounts (recount ["Ava"; "Noah"]%string [strayBallot]).1 = 0.
Proof. split; reflexivity. Qed.



(** * Further properties of the pages *)

(** ** Choosing candidates *)

Lemma filter_ne_notin (c : string) (l : list string) :
  c ∉ l → filter (λ item, item ≠ c) l = l.
Proof.
  induction l as [|x l IH]; intros Hn; [done|].
  apply not_elem_of_cons in Hn as [Hne Hn].
  rewrite filter_cons_True by congruence. by rewrite IH.
Qed.

Lemma filter_ne_length (c : string) (l : list string) :
  c ∈ l → (length (filter (λ item, item ≠ c) l) < length l)%nat.
Proof.
  induction l as [|x l IH]; intros Hin; [by apply elem_of_nil in Hin|].
  destruct (decide (x = c)) as [->|Hne].
  - rewrite filter_cons_False by (intros H; by apply H).
    pose proof (length_filter (λ item, item ≠ c) l). simpl. lia.
  - rewrite filter_cons_True by done. simpl.
    apply elem_of_cons in Hin as [->|Hin]; [done|]. specialize (IH Hin). lia.
Qed.

Lemma toggleSelection_step (candidate : string) (max : Z)
    (prev cands : list string) :
  NoDup prev →
  Z.of_nat (length prev) ≤ Z.max 0 max →
  (∀ c, c ∈ prev → c ∈ cands) →
  candidate ∈ cands →
  NoDup (toggleSelection candidate max prev)
  ∧ Z.of_nat (length (toggleSelection candidate max prev)) ≤ Z.max 0 max
  ∧ (∀ c, c ∈ toggleSelection candidate max prev → c ∈ cands).
Proof.
  intros Hnd Hlen Hsub Hc. unfold toggleSelection.
  case_bool_decide as Hin.
  - split; [by apply NoDup_filter|]. split.
    + pose proof (length_filter (λ item, item ≠ candidate) prev). lia.
    + intros c Hcin. apply list_elem_of_filter in Hcin as [_ Hcin]. by apply Hsub.
  - destruct (Z.of_nat (length prev) >=? max) eqn:Hmax; [done|].
    rewrite Z.geb_leb in Hmax. apply Z.leb_gt in Hmax.
    split; [|split].
    + apply NoDup_app. split; [done|]. split; [|apply NoDup_singleton].
      intros x Hx Hx'. apply list_elem_of_singleton in Hx'. by subst x.
    + rewrite length_app. simpl. lia.
    + intros c Hcin. apply elem_of_app in Hcin as [Hcin|Hcin]; [by apply Hsub|].
      apply list_elem_of_singleton in Hcin. by subst c.
Qed.

(** X1. The selections stay distinct, within the allowed number and among the
    candidates, whatever candidate is toggled. *)
Theorem toggleSelection_keeps (candidate : string) (max : Z)
    (prev cands : list string) :
  NoDup prev →
  Z.of_nat (length prev) ≤ Z.max 0 max →
  (∀ c, c ∈ prev → c ∈ cands) →
  candidate ∈ cands →
  NoDup (toggleSelection candidate max prev)
  ∧ Z.of_nat (length (toggleSelection candidate max prev)) ≤ Z.max 0 max
  ∧ (∀ c, c ∈ toggleSelection candidate max prev → c ∈ cands).
Proof. apply toggleSelection_step. Qed.

Lemma toggleSelection_keeps_witness :
  NoDup (toggleSelection "Liam" 2 ["Ava"; "Noah"]%string)
  ∧ Z.of_nat (length (toggleSelection "Liam" 2 ["Ava"; "Noah"]%string)) ≤ Z.max 0 2
  ∧ (∀ c, c ∈ toggleSelection "Liam" 2 ["Ava"; "Noah"]%string
          → c ∈ candidates scenarioElection).
Proof.
  apply (toggleSelection_keeps "Liam" 2 ["Ava"; "Noah"]%string
           (candidates scenarioElection)).
  - apply (bool_decide_unpack _). vm_compute. exact I.
  - simpl. lia.
  - intros c Hc. vm_compute.
    apply elem_of_cons in Hc as [->|Hc]; [apply list_elem_of_here|].
    apply elem_of_cons in Hc as [->|Hc];
      [apply list_elem_of_further, list_elem_of_here|].
    by apply elem_of_nil in Hc.
  - vm_compute. do 2 apply list_elem_of_further. apply list_elem_of_here.
Defined.

(** X2. A toggle leaves the selections as they are exactly when the candidate
    is not selected and the allowed number is reached: the case in which
    the page disables the check box.  A click on a check box that is not
    disabled always changes the selections. *)
Theorem toggleSelection_noop_iff (election : Election) (candidate : string)
    (sel : list string) :
  (toggleSelection candidate (maxSelections election) sel = sel
   ↔ (candidate ∉ sel) ∧ reachedMax election sel = true)
  ∧ ∀ hasVoted, checkboxDisabled hasVoted election sel candidate = false →
                toggleSelection candidate (maxSelections election) sel ≠ sel.
Proof.
  assert (Hiff : toggleSelection candidate (maxSelections election) sel = sel
                 ↔ (candidate ∉ sel) ∧ reachedMax election sel = true);
    [|split; [exact Hiff|]].
  2:{ intros hv Hdis Heq. apply Hiff in Heq as [Hn Hmax].
      unfold checkboxDisabled in Hdis. rewrite Hmax in Hdis.
      rewrite bool_decide_eq_false_2 in Hdis by done.
      cbn [negb andb] in Hdis. by rewrite orb_true_r in Hdis. }
  unfold toggleSelection, reachedMax. case_bool_decide as Hin.
  - split.
    + intros Heq. pose proof (filter_ne_length candidate sel Hin) as Hlt.
      rewrite Heq in Hlt. lia.
    + by intros [Hn _].
  - destruct (Z.of_nat (length sel) >=? maxSelections election); split; try done.
    + intros Heq. apply (f_equal length) in Heq. rewrite length_app in Heq.
      simpl in Heq. lia.
    + by intros [_ ?].
Qed.

Lemma toggleSelection_noop_iff_witness :
  toggleSelection "Liam" (maxSelections scenarioElection) ["Ava"%string]
  ≠ ["Ava"%string].
Proof.
  apply (proj2 (toggleSelection_noop_iff scenarioElection "Liam" ["Ava"%string]) false).
  reflexivity.
Defined.

(** X3. Toggling a candidate twice: an unselected candidate that fits is added
    and removed again, the selections are back; a selected candidate is
    removed and added again at the end, the same selections in another
    order. *)
Theorem toggleSelection_twice (candidate : string) (max : Z) (prev : list string) :
  (candidate ∉ prev → Z.of_nat (length prev) < max →
     toggleSelection candidate max (toggleSelection candidate max prev) = prev)
  ∧ (candidate ∈ prev → NoDup prev → Z.of_nat (length prev) ≤ max →
     toggleSelection candidate max (toggleSelection candidate max prev)
     = filter (λ item, item ≠ candidate) prev ++ [candidate]
     ∧ toggleSelection candidate max (toggleSelection candidate max prev) ≡ₚ prev).
Proof.
  split.
  - intros Hn Hlt. unfold toggleSelection at 2.
    rewrite bool_decide_eq_false_2 by done.
    replace (Z.of_nat (length prev) >=? max) with false
      by (symmetry; rewrite Z.geb_leb; apply Z.leb_gt; lia).
    unfold toggleSelection.
    rewrite bool_decide_eq_true_2 by (apply elem_of_app; right; apply list_elem_of_here).
    rewrite filter_app, filter_ne_notin by done.
    rewrite filter_cons_False by (intros H; by apply H).
    by rewrite filter_nil, app_nil_r.
  - intros Hin Hnd Hle.
    pose proof (filter_ne_length candidate prev Hin) as Hlt.
    assert (Hout : candidate ∉ filter (λ item, item ≠ candidate) prev).
    { intros H. apply list_elem_of_filter in H as [H _]. by apply H. }
    assert (Heq : toggleSelection candidate max (toggleSelection candidate max prev)
                  = filter (λ item, item ≠ candidate) prev ++ [candidate]).
    { unfold toggleSelection at 2. rewrite bool_decide_eq_true_2 by done.
      unfold toggleSelection. rewrite bool_decide_eq_false_2 by done.
      replace (Z.of_nat (length (filter (λ item, item ≠ candidate) prev)) >=? max)
        with false by (symmetry; rewrite Z.geb_leb; apply Z.leb_gt; lia).
      done. }
    split; [done|]. rewrite Heq.
    apply NoDup_Permutation.
    + apply NoDup_app. split; [by apply NoDup_filter|].
      split; [|apply NoDup_singleton].
      intros x Hx Hx'. apply list_elem_of_singleton in Hx'. by subst x.
    + done.
    + intros x. rewrite elem_of_app, list_elem_of_filter, list_elem_of_singleton.
      destruct (decide (x = candidate)) as [->|Hne]; tauto.
Qed.

Lemma toggleSelection_twice_witness :
  toggleSelection "Noah" 2 (toggleSelection "Noah" 2 ["Ava"%string]) = ["Ava"%string].
Proof.
  apply (proj1 (toggleSelection_twice "Noah" 2 ["Ava"%string])).
  - intros H. apply list_elem_of_singleton in H. discriminate.
  - simpl. lia.
Defined.

(** X4. The home page keeps one selection list per election: its toggle acts on
    the list of the election as the toggle of the election page does, and
    leaves the lists of the other elections alone. *)
Theorem home_toggleSelection (electionId candidate : string) (max : Z)
    (prev : gmap string (list string)) :
  default [] (Home.toggleSelection electionId candidate max prev !! electionId)
  = toggleSelection candidate max (default [] (prev !! electionId))
  ∧ ∀ other, other ≠ electionId →
      Home.toggleSelection electionId candidate max prev !! other = prev !! other.
Proof.
  unfold Home.toggleSelection, toggleSelection. split.
  - case_bool_decide; [by rewrite lookup_insert_eq|].
    destruct (Z.of_nat (length (default [] (prev !! electionId))) >=? max);
      [done|by rewrite lookup_insert_eq].
  - intros other Hne. case_bool_decide; [by rewrite lookup_insert_ne|].
    destruct (Z.of_nat (length (default [] (prev !! electionId))) >=? max);
      [done|by rewrite lookup_insert_ne].
Qed.

Lemma home_toggleSelection_witness :
  Home.toggleSelection "E1" "Ava" 2 {["E2"%string := ["Noah"%string]]} !! "E2"%string
  = Some ["Noah"%string].
Proof.
  rewrite (proj2 (home_toggleSelection "E1" "Ava" 2 {["E2"%string := ["Noah"%string]]})).
  - reflexivity.
  - discriminate.
Defined.




(** ** The owner's dashboard *)

Lemma loadResultsVote_fold (docs : list VoteDoc) (cs : gmap string Z)
    (vs : list string) (tv : Z) :
  foldl loadResultsVote (cs, vs, tv) docs
  = ((foldl recountVote (cs, tv) docs).1,
     vs ++ filter (λ em, truthy em = true) (voterEmail <$> docs),
     (foldl recountVote (cs, tv) docs).2).
Proof.
  revert cs vs tv. induction docs as [|v docs IH]; intros cs vs tv.
  - cbn. by rewrite app_nil_r.
  - cbn [foldl]. unfold loadResultsVote at 2, recountVote at 2 4.
    rewrite fmap_cons. cbn [fst snd].
    destruct (truthy (voterEmail v)) eqn:Hv.
    + rewrite filter_cons_True by done.
      destruct (selections v); rewrite IH; by rewrite <- app_assoc.
    + rewrite filter_cons_False by (by rewrite Hv).
      destruct (selections v); by rewrite IH.
Qed.

Lemma loadResults_run (ok : bool) (election : Election) (st : Store) :
  loadResults ok election st =
  if ok then
    Some {| d_counts := (recount (candidates election) (votesOf (id election) st)).1;
            voters := array_from_set []
                        (filter (λ em, truthy em = true)
                           (voterEmail <$> votesOf (id election) st));
            d_totalVotes := (recount (candidates election) (votesOf (id election) st)).2 |}
  else None.
Proof.
  unfold loadResults, call, getVotesWhereElection, reject. destruct ok; [|done].
  unfold resultsOfVotes. rewrite loadResultsVote_fold. reflexivity.
Qed.






Lemma elem_of_votesOf (eid : string) (st : Store) (v : VoteDoc) :
  v ∈ votesOf eid st ↔ ∃ key, votes st !! key = Some v ∧ electionId v = eid.
Proof.
  unfold votesOf. rewrite list_elem_of_filter, list_elem_of_fmap. split.
  - intros (Hid & [k v'] & -> & Hin). apply elem_of_map_to_list in Hin. eauto.
  - intros (key & Hv & Hid). split; [done|]. exists (key, v).
    split; [done|]. by apply elem_of_map_to_list.
Qed.

Lemma truthy_true (s : string) : truthy s = true ↔ s ≠ EmptyString.
Proof. destruct s; simpl; split; try done. Qed.


(** X6. The dashboard and the recount of the publish workflow count alike: on
    every store the counts and the total of [loadResults] are those of the
    recount of the stored Ballots of the election; so when the workflow
    finds no usable Tally, what it publishes is what the dashboard shows. *)
Theorem dashboard_is_recount (ok : bool) (election : Election) (st : Store)
    (r : Results) :
  loadResults ok election st = Some r →
  (d_counts r, d_totalVotes r)
  = recount (candidates election) (votesOf (id election) st)
  ∧ (trusted (results st !! id election) = None →
     is_Some (elections st !! id election) →
     tallyOf (id election) (closeAndPublish NoFault (Some election) st).1.1
     = Some (d_counts r, d_totalVotes r)).
Proof.
  rewrite loadResults_run. destruct ok; [|done]. intros [= <-]. cbn [d_counts d_totalVotes].
  split; [by destruct (recount _ _)|].
  intros Htr [d Hd]. unfold closeAndPublish. rewrite publishBody_NoFault, Hd.
  cbn [fst]. unfold tallyOf, publishedStore. cbn [results].
  rewrite lookup_insert_eq. cbn [fmap option_fmap option_map publishedTally counts
    totalVotes from_option Datatypes.id].
  rewrite published_counts. unfold publishTallyOf. by rewrite Htr.
Qed.

Lemma dashboard_is_recount_witness :
  ∃ r, loadResults true scenarioElection scenarioStoreA = Some r
       ∧ (d_counts r, d_totalVotes r)
         = recount (candidates scenarioElection) (votesOf "E1" scenarioStoreA).
Proof.
  eexists. split; [reflexivity|].
  exact (proj1 (dashboard_is_recount true scenarioElection scenarioStoreA _ eq_refl)).
Defined.



Lemma loadResults_voters (ok : bool) (election : Election) (st : Store)
    (r : Results) :
  loadResults ok election st = Some r →
  NoDup (voters r)
  ∧ ∀ em, em ∈ voters r ↔
          em ≠ EmptyString
          ∧ ∃ key v, votes st !! key = Some v ∧ electionId v = id election
                     ∧ voterEmail v = em.
Proof.
  rewrite loadResults_run. destruct ok; [|done]. intros [= <-]. cbn [voters].
  destruct (array_from_set_spec
              (filter (λ em, truthy em = true)
                 (voterEmail <$> votesOf (id election) st)) []) as [Hnd Hin].
  split; [done|]. intros em. rewrite Hin, list_elem_of_filter, list_elem_of_fmap.
  rewrite truthy_true. split.
  - intros [[Hne (v & -> & Hv)] _]. split; [done|].
    apply elem_of_votesOf in Hv as (key & Hv & Hid). eauto.
  - intros [Hne (key & v & Hv & Hid & <-)]. split; [|apply not_elem_of_nil].
    split; [done|]. exists v. split; [done|]. apply elem_of_votesOf. eauto.
Qed.

(** X8. The attendance list of the dashboard has no duplicate and no empty
    entry, and lists exactly the emails stored on the Ballots of the
    election. *)
Theorem dashboard_voters (ok : bool) (election : Election) (st : Store)
    (r : Results) :
  loadResults ok election st = Some r →
  NoDup (voters r)
  ∧ ∀ em, em ∈ voters r ↔
          em ≠ EmptyString
          ∧ ∃ key v, votes st !! key = Some v ∧ electionId v = id election
                     ∧ voterEmail v = em.
Proof. apply loadResults_voters. Qed.

Lemma dashboard_voters_witness :
  ∃ r, loadResults true scenarioElection scenarioStoreA = Some r ∧ NoDup (voters r).
Proof.
  eexists. split; [reflexivity|].
  exact (proj1 (dashboard_voters true scenarioElection scenarioStoreA _ eq_refl)).
Defined.

(** X9. A voter whose vote was recorded is on the attendance list of the
    election, under the email of the identity provider as it is (when there
    is one). *)
Theorem attendance_after_vote (ok : bool) (election : Election) (user : User)
    (sel : list string) (st st' : Store) (em : string) :
  submitVote ok (Some user) election sel st = (st', VoteSubmitted) →
  email user = Some em → em ≠ EmptyString →
  ∃ r, loadResults true election st' = Some r ∧ em ∈ voters r.
Proof.
  intros Hrun Hem Hne.
  apply submitVote_submitted in Hrun as (r0 & _ & Hb & Hr & ->).
  rewrite loadResults_run. eexists. split; [reflexivity|].
  apply (loadResults_voters true election (votedStore election user sel r0 st) _
           (loadResults_run true election _)).
  split; [done|].
  exists (voteKey (id election) (uid user)), (newBallot election user sel).
  unfold votedStore. cbn [votes]. rewrite lookup_insert_eq.
  repeat split. cbn. by rewrite Hem.
Qed.

Lemma attendance_after_vote_witness :
  ∃ r, loadResults true scenarioElection scenarioStoreA = Some r
       ∧ ("a@x.com"%string) ∈ voters r.
Proof.
  apply (attendance_after_vote true scenarioElection voterA ["Ava"; "Noah"]%string
           scenarioStore scenarioStoreA "a@x.com").
  - reflexivity.
  - reflexivity.
  - discriminate.
Defined.

(** ** One Ballot per voter *)

(** X10. Once a vote of a user on an election is recorded, [checkVote] reports
    it (and reported none before), the page then disables the submit button
    and every check box, and every later submission of the same
    user on the same election, whatever the selections and whatever copy of
    the election the page holds, leaves the store as it is and is not
    recorded; when it passes the checks made before the transaction it is
    answered with the already-voted error. *)
Theorem one_ballot_per_voter (ok : bool) (user : User) (election : Election)
    (sel : list string) (st st' : Store) :
  submitVote ok (Some user) election sel st = (st', VoteSubmitted) →
  (∀ b, checkVote true (id election) user b st = false)
  ∧ (∀ b, checkVote true (id election) user b st' = true)
  ∧ (∀ b (e' : Election) sel' c,
       submitDisabled (checkVote true (id election) user b st') e' = true
       ∧ checkboxDisabled (checkVote true (id election) user b st') e' sel' c = true)
  ∧ ∀ ok' (e' : Election) sel',
      id e' = id election →
      (submitVote ok' (Some user) e' sel' st').1 = st'
      ∧ (submitVote ok' (Some user) e' sel' st').2 ≠ VoteSubmitted
      ∧ (flag (isClosed e') = false → (1 ≤ length sel')%nat →
         Z.of_nat (length sel') ≤ maxSelections e' →
         (submitVote true (Some user) e' sel' st').2 = VoteAlreadyVotedError).
Proof.
  intros Hrun. apply submitVote_submitted in Hrun as (r & _ & Hb & Hr & ->).
  assert (Hb' : votes (votedStore election user sel r st)
                !! voteKey (id election) (uid user)
                = Some (newBallot election user sel))
    by (unfold votedStore; cbn [votes]; apply lookup_insert_eq).
  assert (Hchk : ∀ b, checkVote true (id election) user b
                        (votedStore election user sel r st) = true).
  { intros b. unfold checkVote, call, getVote. rewrite Hb'.
    apply bool_decide_eq_true_2. eauto. }
  split; [|split; [|split]].
  - intros b. unfold checkVote, call, getVote. rewrite Hb.
    apply bool_decide_eq_false_2. intros [? ?]. discriminate.
  - exact Hchk.
  - intros b e' sel' c. unfold submitDisabled, checkboxDisabled.
    by rewrite Hchk.
  - intros ok' e' sel' Hid.
    assert (Hmain : ∀ o, submitVote o (Some user) e' sel'
                           (votedStore election user sel r st)
                         = (votedStore election user sel r st,
                            (submitVote o (Some user) e' sel'
                               (votedStore election user sel r st)).2)
                         ∧ (submitVote o (Some user) e' sel'
                              (votedStore election user sel r st)).2 ≠ VoteSubmitted).
    { intros o. unfold submitVote.
      destruct (flag (isClosed e')); [done|].
      destruct ((Z.of_nat (length sel') <? 1)
                || (Z.of_nat (length sel') >? maxSelections e')); [done|].
      unfold runTransaction. destruct o; [|done].
      rewrite voteTransaction_run, Hid, Hb'. done. }
    destruct (Hmain ok') as [H1 H2]. split; [by rewrite H1|]. split; [done|].
    intros Hopen Hlo Hhi.
    rewrite (submitVote_reaches true user e' sel' _ Hopen Hlo Hhi).
    unfold runTransaction. by rewrite voteTransaction_run, Hid, Hb'.
Qed.

(** Scenario B: a@x.com votes again. *)
Lemma one_ballot_per_voter_witness :
  submitVote true (Some voterA) scenarioElection ["Liam"%string] scenarioStoreA
  = (scenarioStoreA, VoteAlreadyVotedError).
Proof.
  destruct (one_ballot_per_voter true voterA scenarioElection
              ["Ava"; "Noah"]%string scenarioStore scenarioStoreA eq_refl)
    as (_ & _ & _ & H).
  destruct (H true scenarioElection ["Liam"%string] eq_refl) as (H1 & _ & H3).
  rewrite (surjective_pairing (submitVote _ _ _ _ _)), H1, H3; try done; simpl; lia.
Defined.

Lemma voteKey_cons (a : ascii) (e u : string) :
  voteKey (String a e) u = String a (voteKey e u).
Proof. reflexivity. Qed.

(** X11. The key of a Ballot tells the election and the voter apart as long as
    election ids hold no underscore: two pairs with the same key are then
    the same pair. *)
Theorem voteKey_injective (e1 e2 u1 u2 : string) :
  no_underscore e1 = true → no_underscore e2 = true →
  voteKey e1 u1 = voteKey e2 u2 → e1 = e2 ∧ u1 = u2.
Proof.
  revert e2. induction e1 as [|a e1 IH]; intros [|b e2] H1 H2 Hk.
  - unfold voteKey in Hk. simpl in Hk. by injection Hk.
  - rewrite voteKey_cons in Hk. unfold voteKey at 1 in Hk. simpl in Hk.
    injection Hk as <- _. simpl in H2. discriminate.
  - rewrite voteKey_cons in Hk. unfold voteKey at 2 in Hk. simpl in Hk.
    injection Hk as -> _. simpl in H1. discriminate.
  - rewrite !voteKey_cons in Hk. injection Hk as <- Hk.
    simpl in H1, H2. apply andb_true_iff in H1 as [_ H1].
    apply andb_true_iff in H2 as [_ H2].
    destruct (IH e2 H1 H2 Hk) as [-> ->]. done.
Qed.

Lemma voteKey_injective_witness : ("E1" = "E1" ∧ "ua" = "ua")%string.
Proof.
  apply (voteKey_injective "E1" "E1" "ua" "ua"); reflexivity.
Defined.

(** With an underscore in an election id two different pairs can share a
    key. *)
Example voteKey_collision : voteKey "a_b" "c" = voteKey "a" "b_c".
Proof. reflexivity. Qed.

(** ** What an action leaves alone *)

(** X12. A vote submission, whatever its outcome, writes no Election, touches no
    Tally but the one of its election and no Ballot but the one under the
    key of its election and voter. *)
Theorem submitVote_frame (ok : bool) (user : User) (election : Election)
    (sel : list string) (st : Store) :
  elections (submitVote ok (Some user) election sel st).1 = elections st
  ∧ (∀ eid, eid ≠ id election →
       results (submitVote ok (Some user) election sel st).1 !! eid
       = results st !! eid)
  ∧ (∀ key, key ≠ voteKey (id election) (uid user) →
       votes (submitVote ok (Some user) election sel st).1 !! key
       = votes st !! key).
Proof.
  destruct (submitVote_cases ok (Some user) election sel st)
    as [->|(u & r & [= <-] & _ & _ & _ & ->)]; [done|].
  unfold votedStore. cbn [fst elections results votes].
  split; [done|]. split; intros k Hk; by rewrite lookup_insert_ne.
Qed.

Lemma submitVote_frame_witness :
  votes scenarioStoreA !! voteKey "E1" "ub" = votes scenarioStore !! voteKey "E1" "ub".
Proof.
  apply (proj2 (proj2 (submitVote_frame true voterA scenarioElection
                         ["Ava"; "Noah"]%string scenarioStore))).
  discriminate.
Defined.

Lemma reopenBody_run (f : ReopenFault) (election : Election) (st : Store) :
  reopenBody f election st =
  match f with
  | ReopenUpdateFails => (st, inl STORE_ERROR)
  | _ =>
      match elections st !! id election with
      | None => (st, inl STORE_ERROR)
      | Some d =>
          match f with
          | ReopenSetFails =>
              (with_elections (<[id election := reopenFlag d]> (elections st)) st,
               inl STORE_ERROR)
          | _ =>
              ({| elections := <[id election := reopenFlag d]> (elections st);
                  results := <[id election :=
                                 reopenedTally election (results st !! id election)]>
                               (results st);
                  votes := votes st |}, inr tt)
          end
      end
  end.
Proof.
  unfold reopenBody, await, call, updateElection, setResultsMerge, reject.
  destruct f; cbn; try done;
    destruct (elections st !! id election) as [d|]; cbn; try done.
  by destruct (results st !! id election).
Qed.

(** X13. The recount/publish workflow and the re-opening, whatever their outcome
    and whatever call the backend refuses, write no Ballot and touch no
    Election and no Tally but those of their election. *)
Theorem publish_reopen_frame (election : Election) (st : Store) :
  (∀ f, votes (closeAndPublish f (Some election) st).1.1 = votes st
        ∧ ∀ eid, eid ≠ id election →
            elections (closeAndPublish f (Some election) st).1.1 !! eid
            = elections st !! eid
            ∧ results (closeAndPublish f (Some election) st).1.1 !! eid
              = results st !! eid)
  ∧ (∀ f, votes (reopenVoting f (Some election) st).1.1 = votes st
          ∧ ∀ eid, eid ≠ id election →
              elections (reopenVoting f (Some election) st).1.1 !! eid
              = elections st !! eid
              ∧ results (reopenVoting f (Some election) st).1.1 !! eid
                = results st !! eid).
Proof.
  split; intros f.
  - unfold closeAndPublish. rewrite publishBody_run.
    destruct (negb (works f GetTallyFails)); [done|].
    destruct (negb (works f ScanVotesFails)
              && negb (bool_decide (is_Some (trusted (results st !! id election)))));
      [done|].
    destruct (negb (works f UpdateElectionFails)); [done|].
    destruct (elections st !! id election) as [d|]; [|done].
    destruct (negb (works f SetTallyFails)); cbn; (split; [done|]);
      intros eid Hne; by rewrite ?lookup_insert_ne.
  - unfold reopenVoting. rewrite reopenBody_run.
    destruct f; cbn; try done;
      destruct (elections st !! id election) as [d|]; cbn; try done;
      (split; [done|]); intros eid Hne; by rewrite ?lookup_insert_ne.
Qed.

Lemma publish_reopen_frame_witness :
  votes (closeAndPublish NoFault (Some scenarioElection) scenarioStoreA).1.1
  = votes scenarioStoreA.
Proof.
  exact (proj1 (proj1 (publish_reopen_frame scenarioElection scenarioStoreA) NoFault)).
Defined.

(** ** Closing, publishing and re-opening *)

Lemma publishedStore_page (election : Election) (d : ElectionDoc) (st : Store) :
  PublicResultsPage true (id election) (publishedStore election d st)
  = ResultsPage (title election) true true
      (PublishedCounts (publishTallyOf election st).1 (publishTallyOf election st).2).
Proof.
  unfold PublicResultsPage, loadPublicResults, call, getResults, publishedStore.
  cbn [results]. rewrite lookup_insert_eq.
  unfold renderPublicResults. cbn. by rewrite published_counts.
Qed.

Lemma publishedStore_tallyOf (election : Election) (d : ElectionDoc) (st : Store) :
  tallyOf (id election) (publishedStore election d st)
  = Some (publishTallyOf election st).
Proof.
  unfold tallyOf, publishedStore. cbn [results]. rewrite lookup_insert_eq.
  cbn [fmap option_fmap option_map publishedTally counts totalVotes from_option
       Datatypes.id].
  rewrite published_counts. by destruct (publishTallyOf election st).
Qed.

(** X14. After a run of the workflow that succeeded, the public page shows the
    counts and the total that the workflow took (the stored ones on the
    fast path, the recount otherwise), with both pills; the Election is
    closed and marked published; and a page holding the copy of the
    election that the workflow leaves turns every submission down as
    closed, without touching the store. *)
Theorem published_page (election : Election) (st st1 : Store)
    (e1 : option Election) :
  closeAndPublish NoFault (Some election) st = (st1, e1, PublishDone) →
  PublicResultsPage true (id election) st1
  = ResultsPage (title election) true true
      (PublishedCounts (publishTallyOf election st).1 (publishTallyOf election st).2)
  ∧ isClosed <$> elections st1 !! id election = Some (Some true)
  ∧ resultsPublished <$> elections st1 !! id election = Some (Some true)
  ∧ ∃ c1, e1 = Some c1 ∧ id c1 = id election
          ∧ ∀ ok user sel, submitVote ok (Some user) c1 sel st1 = (st1, VoteClosedError).
Proof.
  unfold closeAndPublish. rewrite publishBody_NoFault.
  destruct (elections st !! id election) as [d|] eqn:Hd; [|done].
  intros [= <- <-]. split; [apply publishedStore_page|].
  unfold publishedStore. cbn [elections]. rewrite lookup_insert_eq.
  split; [done|]. split; [done|].
  eexists. split; [reflexivity|]. split; [done|]. done.
Qed.

Lemma published_page_witness :
  PublicResultsPage true "E1"
    (closeAndPublish NoFault (Some scenarioElection) scenarioStoreA).1.1
  = ResultsPage "Board" true true
      (PublishedCounts (publishTallyOf scenarioElection scenarioStoreA).1
         (publishTallyOf scenarioElection scenarioStoreA).2).
Proof.
  exact (proj1 (published_page scenarioElection scenarioStoreA
                  (publishedStore scenarioElection scenarioElection scenarioStoreA)
                  _ eq_refl)).
Defined.



(** X16. A re-opening that succeeded opens the Election and keeps its published
    mark, writes no Ballot, and keeps the Tally's counts, total and
    published flag: the public page shows the same card as before, without
    the closed pill. *)
Theorem reopen_keeps_tally (election : Election) (st st1 : Store)
    (e1 : option Election) (r : ResultsDoc) :
  reopenVoting ReopenNoFault (Some election) st = (st1, e1, ReopenDone) →
  results st !! id election = Some r →
  votes st1 = votes st
  ∧ isClosed <$> elections st1 !! id election = Some (Some false)
  ∧ resultsPublished <$> elections st1 !! id election
    = resultsPublished <$> elections st !! id election
  ∧ tallyOf (id election) st1 = tallyOf (id election) st
  ∧ PublicResultsPage true (id election) st1
    = ResultsPage (title election) false (flag (isPublished r))
        (if flag (isPublished r)
         then PublishedCounts (default ∅ (counts r)) (default 0 (totalVotes r))
         else NotPublishedYet)
  ∧ ∃ c1, e1 = Some c1 ∧ id c1 = id election ∧ flag (isClosed c1) = false.
Proof.
  unfold reopenVoting. rewrite reopenBody_run.
  destruct (elections st !! id election) as [d|] eqn:Hd; [|done].
  intros [= <- <-] Hr. cbn [votes elections results].
  rewrite lookup_insert_eq. split; [done|]. split; [done|]. split; [done|].
  unfold tallyOf, PublicResultsPage, loadPublicResults, call, getResults.
  cbn [results]. rewrite lookup_insert_eq, Hr. split; [done|]. split; [done|].
  eexists. split; [reflexivity|]. done.
Qed.

Lemma reopen_keeps_tally_witness :
  tallyOf "E1"
    (reopenVoting ReopenNoFault (Some scenarioElection)
       (closeAndPublish NoFault (Some scenarioElection) scenarioStoreA).1.1).1.1
  = tallyOf "E1" (closeAndPublish NoFault (Some scenarioElection) scenarioStoreA).1.1.
Proof.
  eapply (reopen_keeps_tally scenarioElection
            (closeAndPublish NoFault (Some scenarioElection) scenarioStoreA).1.1).
  - reflexivity.
  - reflexivity.
Defined.

(** ** An election without its Tally *)



(** X18. Creation writes the Election and then the Tally, as two writes.  On a
    form that passes the checks: when the first write is refused nothing is
    written; when the second is refused the Election stays without a Tally;
    either way the user is told that creation failed.  If the organizer
    then runs the recount/publish workflow on that election (no Ballot
    refers to it), the workflow creates the Tally with a zero count for
    each candidate and a zero total. *)
Theorem create_without_tally (user : User) (fm : Form) (newId : string)
    (st : Store) :
  truthy (trim (f_title fm)) = true →
  (2 ≤ length (formCandidates fm))%nat →
  1 ≤ f_maxSelections fm ≤ Z.of_nat (length (formCandidates fm)) →
  formEligibleEmails fm ≠ [] →
  handleCreateElection AddElectionFails (Some user) fm newId st = (st, CreateFailed)
  ∧ handleCreateElection SetNewTallyFails (Some user) fm newId st
    = (with_elections (<[newId := newElectionDoc fm user]> (elections st)) st,
       CreateFailed)
  ∧ (results st !! newId = None →
     (∀ key b, votes st !! key = Some b → electionId b ≠ newId) →
     tallyOf newId
       (closeAndPublish NoFault
          (Some {| id := newId; doc_of := newElectionDoc fm user |})
          (handleCreateElection SetNewTallyFails (Some user) fm newId st).1).1.1
     = Some (zeroCounts (formCandidates fm), 0)).
Proof.
  intros Ht Hc Hm He.
  assert (Hrun : ∀ f, handleCreateElection f (Some user) fm newId st
                      = match createBody f fm user newId st with
                        | (st', inr newDocId) => (st', Created newDocId)
                        | (st', inl _) => (st', CreateFailed)
                        end).
  { intros f. unfold handleCreateElection. rewrite Ht. cbn [negb].
    replace (Z.of_nat (length (formCandidates fm)) <? 2) with false
      by (symmetry; apply Z.ltb_ge; lia).
    replace ((f_maxSelections fm <? 1)
             || (f_maxSelections fm >? Z.of_nat (length (formCandidates fm))))
      with false.
    2:{ symmetry. apply orb_false_iff. split; [apply Z.ltb_ge; lia|].
        rewrite Z.gtb_ltb. apply Z.ltb_ge. lia. }
    replace (Z.of_nat (length (formEligibleEmails fm)) =? 0) with false; [done|].
    symmetry. apply Z.eqb_neq. destruct (formEligibleEmails fm); [done|simpl; lia]. }
  split; [by rewrite Hrun|]. split; [by rewrite Hrun|].
  intros Hr Hfresh. rewrite Hrun.
  unfold createBody, await, call, addElection, reject. cbn [fst].
  set (e := {| id := newId; doc_of := newElectionDoc fm user |}).
  set (st1 := with_elections _ st).
  unfold closeAndPublish. rewrite publishBody_NoFault.
  change (elections st1 !! id e) with
    (<[newId := newElectionDoc fm user]> (elections st) !! newId).
  rewrite lookup_insert_eq. cbn [fst].
  change newId with (id e) at 1. rewrite publishedStore_tallyOf.
  unfold publishTallyOf.
  change (results st1 !! id e) with (results st !! newId). rewrite Hr. cbn [trusted].
  change (votesOf (id e) st1) with (votesOf newId st).
  rewrite votesOf_fresh by exact Hfresh. reflexivity.
Qed.

Lemma create_without_tally_witness :
  handleCreateElection SetNewTallyFails (Some organizer) scenarioForm "E1" emptyStore
  = (with_elections (<[("E1"%string) := newElectionDoc scenarioForm organizer]>
                       (elections emptyStore)) emptyStore,
     CreateFailed).
Proof.
  apply (create_without_tally organizer scenarioForm "E1" emptyStore).
  - reflexivity.
  - vm_compute. lia.
  - vm_compute. split; discriminate.
  - vm_compute. discriminate.
Defined.

(** ** The lists of a new election *)

Lemma elem_of_uniqueList (items : list string) (x : string) :
  x ∈ uniqueList items ↔ x ≠ EmptyString ∧ ∃ y, y ∈ items ∧ trim y = x.
Proof.
  unfold uniqueList.
  rewrite (proj2 (array_from_set_spec _ [])), list_elem_of_filter, truthy_true.
  rewrite list_elem_of_fmap. split.
  - intros [[Hne (y & -> & Hy)] _]. eauto.
  - intros [Hne (y & Hy & <-)]. split; [|apply not_elem_of_nil]. eauto.
Qed.












(** ** Eligibility *)

Lemma toLowerCase_empty (s : string) : toLowerCase s = EmptyString ↔ s = EmptyString.
Proof. by destruct s. Qed.

Lemma normalizeEmail_trim (value : string) :
  normalizeEmail (trim value) = normalizeEmail value.
Proof. unfold normalizeEmail. by rewrite trim_idem. Qed.

Lemma elem_of_formEligibleEmails (fm : Form) (x : string) :
  x ≠ EmptyString →
  x ∈ formEligibleEmails fm
  ↔ ∃ line, line ∈ split_lines (eligibleInput fm) ∧ normalizeEmail line = x.
Proof.
  intros Hne. unfold formEligibleEmails. rewrite list_elem_of_fmap. split.
  - intros (z & -> & Hz). apply elem_of_uniqueList in Hz as [_ (y & Hy & <-)].
    exists y. by rewrite normalizeEmail_trim.
  - intros (line & Hl & <-). exists (trim line).
    split; [by rewrite normalizeEmail_trim|].
    apply elem_of_uniqueList. split; [|eauto].
    intros Ht. apply Hne. unfold normalizeEmail. by rewrite Ht.
Qed.

(** X21. On an election that holds the eligible list made by the creation form,
    a user is eligible exactly when the email of the identity provider is
    not blank and equals some line of the form once both are trimmed and
    lower-cased: letter case and surrounding blanks do not matter, on
    either side. *)
Theorem eligible_iff_listed (election : Election) (fm : Form) (user : User)
    (em : string) :
  eligibleEmails election = formEligibleEmails fm →
  email user = Some em →
  isEligible (Some election) (Some user) = true
  ↔ normalizeEmail em ≠ EmptyString
    ∧ ∃ line, line ∈ split_lines (eligibleInput fm)
              ∧ normalizeEmail line = normalizeEmail em.
Proof.
  intros He Hem. unfold isEligible, userEmail. rewrite Hem, He.
  destruct (truthy em) eqn:Ht.
  - rewrite andb_true_iff, truthy_true, bool_decide_eq_true. split.
    + intros [Hne Hin]. split; [done|]. by apply elem_of_formEligibleEmails.
    + intros [Hne Hl]. split; [done|]. by apply elem_of_formEligibleEmails.
  - destruct em; [|discriminate]. cbn. split; [done|]. by intros [? _].
Qed.

Lemma eligible_iff_listed_witness :
  isEligible (Some scenarioElection)
    (Some {| uid := "ub"; email := Some "  B@X.com "%string |}) = true.
Proof.
  apply (eligible_iff_listed scenarioElection scenarioForm
           {| uid := "ub"; email := Some "  B@X.com "%string |} "  B@X.com ").
  - reflexivity.
  - reflexivity.
  - split; [vm_compute; discriminate|].
    exists "b@x.com"%string. split; [|reflexivity].
    vm_compute. repeat first [apply list_elem_of_here|apply list_elem_of_further].
Defined.

(** X22. The vote path reads the id, the closed flag and [maxSelections] of the
    page's election and nothing else of it: the eligible list (like the
    candidates) is not consulted, so two copies that agree on those three
    give the same result on every submission. *)
Theorem vote_ignores_eligibility (ok : bool) (user : option User)
    (e e' : Election) (sel : list string) (st : Store) :
  id e' = id e →
  flag (isClosed e') = flag (isClosed e) →
  maxSelections e' = maxSelections e →
  submitVote ok user e' sel st = submitVote ok user e sel st.
Proof.
  intros Hid Hc Hm. unfold submitVote. destruct user as [u|]; [|done].
  rewrite Hc, Hm. destruct (flag (isClosed e)); [done|].
  destruct ((Z.of_nat (length sel) <? 1)
            || (Z.of_nat (length sel) >? maxSelections e)); [done|].
  unfold runTransaction. destruct ok; [|done].
  rewrite !voteTransaction_run, Hid.
  destruct (votes st !! voteKey (id e) (uid u)); [done|].
  destruct (results st !! id e); [|done].
  unfold votedStore, newBallot. by rewrite Hid.
Qed.

(** A page holding a copy with an empty eligible list: the user is not
    eligible there, the vote is recorded all the same. *)
Lemma vote_ignores_eligibility_witness :
  isEligible (Some scenarioElectionOther) (Some voterA) = false
  ∧ submitVote true (Some voterA) scenarioElectionOther ["Ava"; "Noah"]%string
      scenarioStore
    = (scenarioStoreA, VoteSubmitted).
Proof.
  split; [reflexivity|].
  rewrite (vote_ignores_eligibility true (Some voterA) scenarioElection
             scenarioElectionOther ["Ava"; "Noah"]%string scenarioStore);
    reflexivity.
Defined.

(** X23. When the Tally holds a non-empty counts map the workflow does not read
    the Ballots: whatever the [votes] collection holds, and whether or not
    the backend would serve a scan of it, the run ends the same and writes
    the same Elections and Tallies. *)
Theorem fast_path_ignores_ballots (election : Election) (st : Store)
    (t : gmap string Z * Z) (v : gmap string VoteDoc) :
  trusted (results st !! id election) = Some t →
  closeAndPublish ScanVotesFails (Some election) (with_votes v st)
  = closeAndPublish NoFault (Some election) (with_votes v st)
  ∧ elections (closeAndPublish NoFault (Some election) (with_votes v st)).1.1
    = elections (closeAndPublish NoFault (Some election) st).1.1
  ∧ results (closeAndPublish NoFault (Some election) (with_votes v st)).1.1
    = results (closeAndPublish NoFault (Some election) st).1.1
  ∧ (closeAndPublish NoFault (Some election) (with_votes v st)).2
    = (closeAndPublish NoFault (Some election) st).2.
Proof.
  intros Ht. unfold closeAndPublish. rewrite !publishBody_run.
  cbn [works negb andb with_votes results elections]. rewrite Ht.
  rewrite bool_decide_eq_true_2 by eauto. cbn [negb].
  destruct (elections st !! id election) as [d|]; [|done].
  unfold publishedStore, publishTallyOf.
  cbn [with_votes results elections fst snd]. by rewrite Ht.
Qed.

Lemma fast_path_ignores_ballots_witness :
  results (closeAndPublish NoFault (Some scenarioElection)
             (with_votes ∅ scenarioStoreA)).1.1
  = results (closeAndPublish NoFault (Some scenarioElection) scenarioStoreA).1.1.
Proof.
  eapply (fast_path_ignores_ballots scenarioElection scenarioStoreA _ ∅).
  reflexivity.
Defined.

(** ** Normalizing an email *)

(** X24. [normalizeEmail] gives a trimmed, lower-cased string and changes
    nothing when applied again; trimming or lower-casing its argument
    first does not change its result. *)
Theorem normalizeEmail_idempotent (value : string) :
  normalizeEmail (normalizeEmail value) = normalizeEmail value
  ∧ trim (normalizeEmail value) = normalizeEmail value
  ∧ toLowerCase (normalizeEmail value) = normalizeEmail value
  ∧ normalizeEmail (trim value) = normalizeEmail value
  ∧ normalizeEmail (toLowerCase value) = normalizeEmail value.
Proof.
  split; [|split; [|split; [|split]]].
  - unfold normalizeEmail at 1. by rewrite normalizeEmail_trimmed, normalizeEmail_lowered.
  - apply normalizeEmail_trimmed.
  - apply normalizeEmail_lowered.
  - apply normalizeEmail_trim.
  - unfold normalizeEmail. by rewrite trim_toLowerCase, toLowerCase_idem.
Qed.

(** ** Two votes in either order *)





